(** * SCP-079-STATUS: the snapshot formatter of [plugins/functions/status.py]

    A shallow embedding of the field substitution functions, of the size
    formatter [get_size] and of the orchestrator [get_status], together with
    the properties of the written specification that they satisfy or break.

    Python values are modelled as follows.
    - [str] is the [string] of its bytes; the operators [in] and
      [str.replace] are written out ([contains], [replace]).
    - [int] is [Z]; a [float] is a finite double, kept as an exact dyadic
      number ([pyfloat]).  True division of an [int] rounds to 53 bits and
      raises [OverflowError] beyond the double range, as CPython does;
      [str] of an [int] raises [ValueError] beyond the interpreter's limit
      of decimal digits ([py_str]).
    - A call that may raise returns an [outcome]; the exceptions are the
      instances of Python's [Exception], the only ones [except Exception]
      catches.
    - The host (psutil, platform, socket, distro), the configuration module
      [glovar] and the helpers of [plugins/functions/etc.py] are the fields of
      the class [Host]; the host's answers may change from call to call. *)

From Stdlib Require Import String Ascii List ZArith Lia Bool Arith.
From Stdlib Require Import DecimalString.
Import ListNotations.

Local Open Scope string_scope.
Local Open Scope Z_scope.

(** ** Python strings *)

Module PyStr.

(** [sub in s] *)
Fixpoint contains (sub s : string) : bool :=
  String.prefix sub s ||
  match s with
  | EmptyString => false
  | String _ s' => contains sub s'
  end.

(** [s.replace(old, new)] for a non-empty [old]: scan from the left; at a
    match emit [new] and skip the matched characters ([skip] counts the ones
    still to drop), otherwise copy one character. *)
Fixpoint replace_from (old new : string) (skip : nat) (s : string) : string :=
  match s with
  | EmptyString => EmptyString
  | String c s' =>
      match skip with
      | S k => replace_from old new k s'
      | O =>
          if String.prefix old s
          then new ++ replace_from old new (Nat.pred (String.length old)) s'
          else String c (replace_from old new O s')
      end
  end.

(** [s.replace("", new)]: [new] before every character and at the end. *)
Fixpoint interleave (new s : string) : string :=
  match s with
  | EmptyString => new
  | String c s' => new ++ String c (interleave new s')
  end.

(** [s.replace(old, new)] *)
Definition replace (old new s : string) : string :=
  match old with
  | EmptyString => interleave new s
  | String _ _ => replace_from old new O s
  end.

(** [sep.join(pieces)] *)
Fixpoint join (sep : string) (pieces : list string) : string :=
  match pieces with
  | [] => EmptyString
  | [p] => p
  | p :: rest => p ++ sep ++ join sep rest
  end.

(** [s[:-1]] *)
Fixpoint drop_last (s : string) : string :=
  match s with
  | EmptyString => EmptyString
  | String c EmptyString => EmptyString
  | String c s' => String c (drop_last s')
  end.

(** [c in s] for one character *)
Fixpoint has_char (c : ascii) (s : string) : bool :=
  match s with
  | EmptyString => false
  | String d s' => Ascii.eqb c d || has_char c s'
  end.

Definition tab : string := String (ascii_of_nat 9) EmptyString.
Definition newline : string := String (ascii_of_nat 10) EmptyString.

(** [str(z)] for an [int] *)
Definition str_int (z : Z) : string := NilZero.string_of_int (Z.to_int z).

End PyStr.
Import PyStr.

(** ** Python numbers *)

Module PyNum.

(** A finite double, kept exactly: the value is [fnum * 2 ^ fexp]. *)
Record pyfloat := { fnum : Z; fexp : Z }.

(** The value of an arithmetic variable of [get_size]: an [int] until the
    first true division, a [float] afterwards. *)
Inductive pynum :=
| PyInt (z : Z)
| PyFloat (x : pyfloat).

(** An instance of Python's [Exception]: its class name and its message. *)
Inductive exn := Exception (kind msg : string).

Definition exn_str (e : exn) : string :=
  match e with Exception _ msg => msg end.

(** What a call does: it returns a value or raises. *)
Inductive outcome (A : Type) :=
| Returned (a : A)
| Raised (e : exn).
Arguments Returned {A} a.
Arguments Raised {A} e.

(** [str(z)] for an [int] in an interpreter whose limit of digits for the
    conversion ([sys.get_int_max_str_digits()]) is [limit]: 4300 by default
    from CPython 3.11 on, 0 where there is no limit.  The digits are
    counted without the sign.  (The limit is on the conversion of an
    [int]; formatting a [float] has none.) *)
Definition py_str (limit : Z) (z : Z) : outcome string :=
  if (0 <? limit)
     && (limit <? Z.of_nat (String.length (str_int (Z.abs z))))
  then Raised (Exception "ValueError"
                 ("Exceeds the limit (" ++ str_int limit ++
                  " digits) for integer string conversion; " ++
                  "use sys.set_int_max_str_digits() to increase the limit"))
  else Returned (str_int z).

(** [num / den] rounded to the nearest integer, ties to even ([den > 0]). *)
Definition round_half_even (num den : Z) : Z :=
  let q := num / den in
  let r := num mod den in
  if 2 * r <? den then q
  else if den <? 2 * r then q + 1
  else if Z.even q then q else q + 1.

(** The double nearest to a non-negative integer, as an integer: integers of
    at most 53 bits are exact, longer ones keep their 53 leading bits,
    rounded to nearest, ties to even. *)
Definition round53 (a : Z) : Z :=
  let bits := Z.log2 a + 1 in
  if bits <=? 53 then a
  else let s := bits - 53 in round_half_even a (2 ^ s) * 2 ^ s.

(** [float(z)]: [OverflowError] once the nearest double would be [2^1024]. *)
Definition to_float (z : Z) : outcome pyfloat :=
  let m := round53 (Z.abs z) in
  if m <? 2 ^ 1024
  then Returned {| fnum := Z.sgn z * m; fexp := 0 |}
  else Raised (Exception "OverflowError" "int too large to convert to float").

(** [b / d] for a divisor [d] that is a power of two (here always [factor]):
    the correctly rounded quotient of two [int]s, which raises when it
    exceeds the doubles; a [float] only has its exponent lowered (the
    dividends of [get_size] are at least 1024, so nothing is lost). *)
Definition truediv (b : pynum) (d : Z) : outcome pynum :=
  match b with
  | PyInt z =>
      let m := round53 (Z.abs z) in
      if m <? 2 ^ 1024 * d
      then Returned (PyFloat {| fnum := Z.sgn z * m; fexp := - Z.log2 d |})
      else Raised (Exception "OverflowError"
                     "integer division result too large for a float")
  | PyFloat x =>
      Returned (PyFloat {| fnum := fnum x; fexp := fexp x - Z.log2 d |})
  end.

(** [b < d] for an [int] [d]; the comparison is exact. *)
Definition lt_int (b : pynum) (d : Z) : bool :=
  match b with
  | PyInt z => z <? d
  | PyFloat x =>
      if 0 <=? fexp x then fnum x * 2 ^ fexp x <? d
      else fnum x <? d * 2 ^ (- fexp x)
  end.

(** [|x| * 10^digits] rounded to the nearest integer, ties to even: the
    digits that a fixed-point format prints. *)
Definition scaled_digits (digits : nat) (x : pyfloat) : Z :=
  let n := Z.abs (fnum x) * 10 ^ Z.of_nat digits in
  if 0 <=? fexp x then n * 2 ^ fexp x
  else round_half_even n (2 ^ (- fexp x)).

(** A non-negative integer in decimal, padded with zeros on the left up to
    [width] characters. *)
Definition zero_pad (width : nat) (z : Z) : string :=
  let s := str_int z in
  String.concat "" (repeat "0" (width - String.length s)) ++ s.

(** [f"{x:.{digits}f}"] for a [float]: correctly rounded, ties to even. *)
Definition format_fixed (digits : nat) (x : pyfloat) : string :=
  let q := scaled_digits digits x in
  let p := 10 ^ Z.of_nat digits in
  (if fnum x <? 0 then "-" else "") ++
  str_int (q / p) ++
  match digits with
  | O => ""
  | S _ => "." ++ zero_pad digits (q mod p)
  end.

(** [f"{b:.2f}"]: an [int] is converted with [float] first. *)
Definition format_2f (b : pynum) : outcome string :=
  match b with
  | PyInt z =>
      match to_float z with
      | Returned x => Returned (format_fixed 2 x)
      | Raised e => Raised e
      end
  | PyFloat x => Returned (format_fixed 2 x)
  end.

End PyNum.
Import PyNum.

(** ** The host and the other modules *)

(** [psutil.cpu_freq()] *)
Record scpufreq := { current : pyfloat; freq_min : pyfloat; freq_max : pyfloat }.

(** [psutil.virtual_memory()], the fields that are read. *)
Record svmem := { total : Z; available : Z; percent : pyfloat; used : Z }.

(** Everything the module imports.  A call to the host takes the host's
    state and hands back a new one. *)
Class Host := {
  World : Type;
  (* psutil *)
  cpu_count : bool -> World -> outcome (option Z) * World;
  cpu_freq : World -> outcome (option scpufreq) * World;
  cpu_percent : World -> outcome pyfloat * World;
  (* [cpu_percent(percpu=True, interval=1)] *)
  cpu_percent_percpu : World -> outcome (list pyfloat) * World;
  virtual_memory : World -> outcome svmem * World;
  boot_time : World -> outcome pyfloat * World;
  (* distro, platform, socket *)
  linux_distribution : World -> outcome (list string) * World;
  uname_release : World -> outcome string * World;
  gethostname : World -> outcome string * World;
  (* glovar *)
  glovar_interval : Z;
  glovar_format_date : string;
  glovar_format_time : string;
  glovar_report : string;
  (* plugins/functions/etc.py *)
  get_now : World -> outcome Z * World;
  get_readable_time : string -> World -> outcome string * World;
  get_time_str : pyfloat -> string -> World -> outcome string * World;
  lang : string -> string;
  code : string -> string;
  (* Python: [str(x)] of a float, [n - x], and the limit of digits of
     [str(n)] ([sys.get_int_max_str_digits()], 0 for none) *)
  float_repr : pyfloat -> string;
  int_sub_float : Z -> pyfloat -> pyfloat;
  int_max_str_digits : Z
}.

(** ** Effects: the host's state, the calls made to it, the warnings logged *)

Section Snapshot.
Context `{H : Host}.

Record state := {
  world : World;
  calls : list string;      (* the host calls made so far, oldest first *)
  warnings : list string    (* what [logger.warning] received, oldest first *)
}.

Definition M (A : Type) : Type := state -> outcome A * state.

Definition ret {A : Type} (a : A) : M A := fun s => (Returned a, s).

Definition raise {A : Type} (e : exn) : M A := fun s => (Raised e, s).

Definition bind {A B : Type} (m : M A) (k : A -> M B) : M B :=
  fun s =>
    match m s with
    | (Returned a, s') => k a s'
    | (Raised e, s') => (Raised e, s')
    end.

Notation "x <- m ;; k" := (bind m (fun x => k))
  (at level 61, m at next level, right associativity).
Notation "m ;;; k" := (bind m (fun _ => k))
  (at level 61, right associativity).

(** A computation that only evaluates an expression. *)
Definition of_outcome {A : Type} (o : outcome A) : M A := fun s => (o, s).

(** [try: body  except Exception as e: handler e] *)
Definition try_except {A : Type} (body : M A) (handler : exn -> M A) : M A :=
  fun s =>
    match body s with
    | (Returned a, s') => (Returned a, s')
    | (Raised e, s') => handler e s'
    end.

(** [logger.warning(msg, exc_info=True)] *)
Definition warning (msg : string) : M unit :=
  fun s =>
    (Returned tt,
     {| world := world s; calls := calls s; warnings := warnings s ++ [msg] |}).

(** A call to the host: it is recorded, and the host moves on. *)
Definition os_call {A : Type} (name : string)
    (f : World -> outcome A * World) : M A :=
  fun s =>
    let (r, w) := f (world s) in
    (r, {| world := w; calls := calls s ++ [name]; warnings := warnings s |}).

(** ** The size formatter *)

Definition factor : Z := 1024.

Definition units : list string := [""; "K"; "M"; "G"; "T"; "P"].

(** The [for unit in ...] loop of [get_size]: the loop variable is bound
    first, then the test may leave the loop, then [b] is divided.  The
    result is the pair of [b] and [unit] after the loop. *)
Fixpoint size_loop (us : list string) (b : pynum) (unit : option string)
    : outcome (pynum * option string) :=
  match us with
  | [] => Returned (b, unit)
  | u :: rest =>
      if lt_int b factor then Returned (b, Some u)
      else
        match truediv b factor with
        | Returned b' => size_loop rest b' (Some u)
        | Raised e => Raised e
        end
  end.

(** The body of the [try] of [get_size]. *)
Definition get_size_body (b : Z) (suffix : string) : outcome string :=
  match size_loop units (PyInt b) None with
  | Returned (b', Some unit) =>
      match format_2f b' with
      | Returned digits => Returned (digits ++ " " ++ unit ++ suffix)
      | Raised e => Raised e
      end
  | Returned (_, None) =>
      Raised (Exception "UnboundLocalError" "unit")
  | Raised e => Raised e
  end.

Definition get_size (b : Z) (suffix : string) : M string :=
  let result := "" in
  try_except
    (fun s => (get_size_body b suffix, s))
    (fun e => warning ("Get size error: " ++ exn_str e) ;;; ret result).

(** ** The field substitution functions *)

(** The shape all of them share: [status] is the expression that fetches and
    formats the metric. *)
Definition fill (codename label : string) (status : M string)
    (text : string) : M string :=
  let result := text in
  try_except
    (if negb (contains codename text) then ret result
     else
       st <- status ;;
       ret (replace codename st result))
    (fun e => warning (label ++ " error: " ++ exn_str e) ;;; ret result).

(** [str(n)] for an [int] in this interpreter. *)
Definition str (n : Z) : M string :=
  of_outcome (py_str int_max_str_digits n).

(** [str(cpu_count(...))]: the count may be [None]. *)
Definition str_count (c : option Z) : M string :=
  match c with
  | Some n => str n
  | None => ret "None"
  end.

(** [cpu_freq().attr]: [cpu_freq()] may be [None]. *)
Definition freq_attr (attr : scpufreq -> pyfloat) (name : string) : M pyfloat :=
  fr <- os_call "cpu_freq" cpu_freq ;;
  match fr with
  | Some r => ret (attr r)
  | None =>
      raise (Exception "AttributeError"
               ("'NoneType' object has no attribute '" ++ name ++ "'"))
  end.

Definition get_cpu_count_logical : string -> M string :=
  fill "$cpu_count_logical$" "Get cpu count logical"
    (c <- os_call "cpu_count" (cpu_count true) ;; str_count c).

Definition get_cpu_count_physical : string -> M string :=
  fill "$cpu_count_physical$" "Get cpu count physical"
    (c <- os_call "cpu_count" (cpu_count false) ;; str_count c).

Definition get_cpu_freq_current : string -> M string :=
  fill "$freq_current$" "Get cpu freq current"
    (x <- freq_attr current "current" ;; ret (format_fixed 2 x ++ " Mhz")).

Definition get_cpu_usage_total : string -> M string :=
  fill "$cpu_percent$" "Get cpu usage total"
    (x <- os_call "cpu_percent" cpu_percent ;; ret (float_repr x ++ "%")).

Definition tabs4 : string := tab ++ tab ++ tab ++ tab.

(** One round of the loop of [get_cpu_usage_per]; [i] is the index that
    [enumerate] gives (the index of a list: it has far fewer digits than
    any limit that [str] may have). *)
Definition per_core_line (i : nat) (percent : pyfloat) : string :=
  tabs4 ++ lang "core" ++ tab ++ str_int (Z.of_nat i + 1) ++ lang "colon"
        ++ code (float_repr percent ++ "%") ++ newline.

Fixpoint per_core_loop (i : nat) (percents : list pyfloat) (status : string)
    : string :=
  match percents with
  | [] => status
  | percent :: rest =>
      per_core_loop (S i) rest (status ++ per_core_line i percent)
  end.

Definition per_core_status (percents : list pyfloat) : string :=
  let status := per_core_loop 0 percents "" in
  match status with
  | EmptyString => status
  | String _ _ => drop_last status
  end.

Definition get_cpu_usage_per : string -> M string :=
  fill "$cpu_percent_per$" "Get cpu usage per"
    (ps <- os_call "cpu_percent" cpu_percent_percpu ;;
     ret (per_core_status ps)).

Definition get_cpu_freq_max : string -> M string :=
  fill "$freq_max$" "Get cpu freq max"
    (x <- freq_attr freq_max "max" ;; ret (format_fixed 0 x ++ " Mhz")).

Definition get_cpu_freq_min : string -> M string :=
  fill "$freq_min$" "Get cpu freq min"
    (x <- freq_attr freq_min "min" ;; ret (format_fixed 0 x ++ " Mhz")).

Definition get_dist : string -> M string :=
  fill "$dist$" "Get dist"
    (d <- os_call "linux_distribution" linux_distribution ;;
     ret (join " " (removelast d))).

Definition get_hostname : string -> M string :=
  fill "$hostname$" "Get hostname" (os_call "gethostname" gethostname).

Definition get_interval : string -> M string :=
  fill "$interval$" "Get interval" (str glovar_interval).

Definition get_kernel : string -> M string :=
  fill "$kernel$" "Get kernel" (os_call "uname" uname_release).

Definition get_last : string -> M string :=
  fill "$last$" "Get last"
    (os_call "get_readable_time" (get_readable_time glovar_format_date)).

Definition get_mem_available : string -> M string :=
  fill "$memory_available$" "Get mem available"
    (vm <- os_call "virtual_memory" virtual_memory ;;
     get_size (available vm) "B").

Definition get_mem_percent : string -> M string :=
  fill "$memory_percent$" "Get mem percent"
    (vm <- os_call "virtual_memory" virtual_memory ;;
     ret (float_repr (percent vm) ++ "%")).

Definition get_mem_total : string -> M string :=
  fill "$memory_total$" "Get mem total"
    (vm <- os_call "virtual_memory" virtual_memory ;;
     get_size (total vm) "B").

Definition get_mem_used : string -> M string :=
  fill "$memory_used$" "Get mem used"
    (vm <- os_call "virtual_memory" virtual_memory ;;
     get_size (used vm) "B").

Definition get_up_time : string -> M string :=
  fill "$up_time$" "Get up time"
    (now <- os_call "get_now" get_now ;;
     boot <- os_call "boot_time" boot_time ;;
     os_call "get_time_str"
       (get_time_str (int_sub_float now boot) glovar_format_time)).

(** ** The orchestrator *)

(** The statements [result = f(result)] of a [try] block, in order: the
    value of [result] when the block is left, and the exception that left
    it, if any. *)
Fixpoint assign_each (passes : list (string -> M string)) (result : string)
    : state -> (string * option exn) * state :=
  fun s =>
    match passes with
    | [] => ((result, None), s)
    | f :: rest =>
        match f result s with
        | (Returned r, s') => assign_each rest r s'
        | (Raised e, s') => ((result, Some e), s')
        end
    end.

(** The [try] block followed by [except Exception as e: logger.warning(...)]
    and by [return result]. *)
Definition run_passes (passes : list (string -> M string)) (start : string)
    : M string :=
  fun s =>
    match assign_each passes start s with
    | ((result, None), s') => (Returned result, s')
    | ((result, Some e), s') =>
        (warning ("Get status error: " ++ exn_str e) ;;; ret result) s'
    end.

Definition get_status : M string :=
  run_passes
    [ (* Basic *)
      get_interval; get_last;
      (* System *)
      get_dist; get_kernel; get_hostname; get_up_time;
      (* CPU *)
      get_cpu_count_physical; get_cpu_count_logical;
      get_cpu_freq_max; get_cpu_freq_min; get_cpu_freq_current;
      get_cpu_usage_total; get_cpu_usage_per;
      (* Memory *)
      get_mem_total; get_mem_available; get_mem_used; get_mem_percent ]
    glovar_report.

(** ** The closed set of fields *)

Inductive field :=
| Interval | Last | Dist | Kernel | Hostname | UpTime
| CpuCountPhysical | CpuCountLogical | FreqMax | FreqMin | FreqCurrent
| CpuPercent | CpuPercentPer
| MemoryTotal | MemoryAvailable | MemoryUsed | MemoryPercent.

Definition all_fields : list field :=
  [ Interval; Last; Dist; Kernel; Hostname; UpTime;
    CpuCountPhysical; CpuCountLogical; FreqMax; FreqMin; FreqCurrent;
    CpuPercent; CpuPercentPer;
    MemoryTotal; MemoryAvailable; MemoryUsed; MemoryPercent ].

(** The substitution function of a field. *)
Definition substitute (f : field) : string -> M string :=
  match f with
  | Interval => get_interval
  | Last => get_last
  | Dist => get_dist
  | Kernel => get_kernel
  | Hostname => get_hostname
  | UpTime => get_up_time
  | CpuCountPhysical => get_cpu_count_physical
  | CpuCountLogical => get_cpu_count_logical
  | FreqMax => get_cpu_freq_max
  | FreqMin => get_cpu_freq_min
  | FreqCurrent => get_cpu_freq_current
  | CpuPercent => get_cpu_usage_total
  | CpuPercentPer => get_cpu_usage_per
  | MemoryTotal => get_mem_total
  | MemoryAvailable => get_mem_available
  | MemoryUsed => get_mem_used
  | MemoryPercent => get_mem_percent
  end.

(** The token of a field, the name under which its failures are logged, and
    the expression that fetches and formats its metric, as they stand in the
    field's function ([substitute_is_fill] below checks the three tables
    against the functions). *)
Definition codename_of (f : field) : string :=
  match f with
  | Interval => "$interval$"
  | Last => "$last$"
  | Dist => "$dist$"
  | Kernel => "$kernel$"
  | Hostname => "$hostname$"
  | UpTime => "$up_time$"
  | CpuCountPhysical => "$cpu_count_physical$"
  | CpuCountLogical => "$cpu_count_logical$"
  | FreqMax => "$freq_max$"
  | FreqMin => "$freq_min$"
  | FreqCurrent => "$freq_current$"
  | CpuPercent => "$cpu_percent$"
  | CpuPercentPer => "$cpu_percent_per$"
  | MemoryTotal => "$memory_total$"
  | MemoryAvailable => "$memory_available$"
  | MemoryUsed => "$memory_used$"
  | MemoryPercent => "$memory_percent$"
  end.

Definition label_of (f : field) : string :=
  match f with
  | Interval => "Get interval"
  | Last => "Get last"
  | Dist => "Get dist"
  | Kernel => "Get kernel"
  | Hostname => "Get hostname"
  | UpTime => "Get up time"
  | CpuCountPhysical => "Get cpu count physical"
  | CpuCountLogical => "Get cpu count logical"
  | FreqMax => "Get cpu freq max"
  | FreqMin => "Get cpu freq min"
  | FreqCurrent => "Get cpu freq current"
  | CpuPercent => "Get cpu usage total"
  | CpuPercentPer => "Get cpu usage per"
  | MemoryTotal => "Get mem total"
  | MemoryAvailable => "Get mem available"
  | MemoryUsed => "Get mem used"
  | MemoryPercent => "Get mem percent"
  end.

Definition status_of (f : field) : M string :=
  match f with
  | Interval => str glovar_interval
  | Last =>
      os_call "get_readable_time" (get_readable_time glovar_format_date)
  | Dist =>
      d <- os_call "linux_distribution" linux_distribution ;;
      ret (join " " (removelast d))
  | Kernel => os_call "uname" uname_release
  | Hostname => os_call "gethostname" gethostname
  | UpTime =>
      now <- os_call "get_now" get_now ;;
      boot <- os_call "boot_time" boot_time ;;
      os_call "get_time_str"
        (get_time_str (int_sub_float now boot) glovar_format_time)
  | CpuCountPhysical =>
      c <- os_call "cpu_count" (cpu_count false) ;; str_count c
  | CpuCountLogical =>
      c <- os_call "cpu_count" (cpu_count true) ;; str_count c
  | FreqMax =>
      x <- freq_attr freq_max "max" ;; ret (format_fixed 0 x ++ " Mhz")
  | FreqMin =>
      x <- freq_attr freq_min "min" ;; ret (format_fixed 0 x ++ " Mhz")
  | FreqCurrent =>
      x <- freq_attr current "current" ;; ret (format_fixed 2 x ++ " Mhz")
  | CpuPercent =>
      x <- os_call "cpu_percent" cpu_percent ;; ret (float_repr x ++ "%")
  | CpuPercentPer =>
      ps <- os_call "cpu_percent" cpu_percent_percpu ;;
      ret (per_core_status ps)
  | MemoryTotal =>
      vm <- os_call "virtual_memory" virtual_memory ;; get_size (total vm) "B"
  | MemoryAvailable =>
      vm <- os_call "virtual_memory" virtual_memory ;;
      get_size (available vm) "B"
  | MemoryUsed =>
      vm <- os_call "virtual_memory" virtual_memory ;; get_size (used vm) "B"
  | MemoryPercent =>
      vm <- os_call "virtual_memory" virtual_memory ;;
      ret (float_repr (percent vm) ++ "%")
  end.

End Snapshot.

(** ** A host to evaluate on *)

Module Demo.

(** A host whose answers are fixed: its state is the table of answers. *)
Record answers := {
  a_cpu_count : outcome (option Z);
  a_cpu_freq : outcome (option scpufreq);
  a_cpu_percent : outcome pyfloat;
  a_cpu_percent_percpu : outcome (list pyfloat);
  a_virtual_memory : outcome svmem;
  a_boot_time : outcome pyfloat;
  a_linux_distribution : outcome (list string);
  a_uname_release : outcome string;
  a_gethostname : outcome string;
  a_get_now : outcome Z;
  a_get_readable_time : outcome string;
  a_get_time_str : outcome string
}.

(** [glovar.lang.get(text, text)] over a two-entry table. *)
Definition demo_lang (text : string) : string :=
  if String.eqb text "core" then "Core"
  else if String.eqb text "colon" then ": "
  else text.

Definition demo_code (text : string) : string :=
  "<code>" ++ text ++ "</code>".

(** One decimal, which is what [str] shows of the percentages psutil
    reports (they are rounded to one decimal). *)
Definition demo_float_repr (x : pyfloat) : string := format_fixed 1 x.

(** [n - x] where the difference is a double (no rounding is modelled). *)
Definition demo_int_sub_float (n : Z) (x : pyfloat) : pyfloat :=
  if 0 <=? fexp x
  then {| fnum := n - fnum x * 2 ^ fexp x; fexp := 0 |}
  else {| fnum := n * 2 ^ (- fexp x) - fnum x; fexp := fexp x |}.

Definition host_config (interval limit : Z) (markup : string -> string)
    (template : string) : Host := {|
  World := answers;
  cpu_count := fun _ w => (a_cpu_count w, w);
  cpu_freq := fun w => (a_cpu_freq w, w);
  cpu_percent := fun w => (a_cpu_percent w, w);
  cpu_percent_percpu := fun w => (a_cpu_percent_percpu w, w);
  virtual_memory := fun w => (a_virtual_memory w, w);
  boot_time := fun w => (a_boot_time w, w);
  linux_distribution := fun w => (a_linux_distribution w, w);
  uname_release := fun w => (a_uname_release w, w);
  gethostname := fun w => (a_gethostname w, w);
  glovar_interval := interval;
  glovar_format_date := "%Y-%m-%d";
  glovar_format_time := "%H:%M:%S";
  glovar_report := template;
  get_now := fun w => (a_get_now w, w);
  get_readable_time := fun _ w => (a_get_readable_time w, w);
  get_time_str := fun _ _ w => (a_get_time_str w, w);
  lang := demo_lang;
  code := markup;
  float_repr := demo_float_repr;
  int_sub_float := demo_int_sub_float;
  int_max_str_digits := limit
|}.

Definition host_with : (string -> string) -> string -> Host :=
  host_config 60 4300.

Definition host : string -> Host := host_with demo_code.

(** The same host with a [code] helper that adds no markup. *)
Definition plain_host : string -> Host := host_with (fun text => text).

Definition float_of_halves (n : Z) : pyfloat := {| fnum := n; fexp := -1 |}.

(** A machine with two cores and 8 GiB of memory. *)
Definition machine : answers := {|
  a_cpu_count := Returned (Some 2);
  a_cpu_freq :=
    Returned (Some {| current := float_of_halves 4801;
                      freq_min := float_of_halves 1600;
                      freq_max := float_of_halves 7000 |});
  a_cpu_percent := Returned (float_of_halves 25);
  a_cpu_percent_percpu := Returned [float_of_halves 25; float_of_halves 7];
  a_virtual_memory :=
    Returned {| total := 8 * 1024 ^ 3; available := 5 * 1024 ^ 3;
                percent := float_of_halves 85; used := 3 * 1024 ^ 3 |};
  a_boot_time := Returned {| fnum := 1600000000; fexp := 0 |};
  a_linux_distribution := Returned ["Debian GNU/Linux"; "10"; "buster"];
  a_uname_release := Returned "4.19.0-6-amd64";
  a_gethostname := Returned "srv1";
  a_get_now := Returned 1600003600;
  a_get_readable_time := Returned "2020-09-13";
  a_get_time_str := Returned "1:00:00"
|}.

Definition set_hostname (name : outcome string) (w : answers) : answers := {|
  a_cpu_count := a_cpu_count w;
  a_cpu_freq := a_cpu_freq w;
  a_cpu_percent := a_cpu_percent w;
  a_cpu_percent_percpu := a_cpu_percent_percpu w;
  a_virtual_memory := a_virtual_memory w;
  a_boot_time := a_boot_time w;
  a_linux_distribution := a_linux_distribution w;
  a_uname_release := a_uname_release w;
  a_gethostname := name;
  a_get_now := a_get_now w;
  a_get_readable_time := a_get_readable_time w;
  a_get_time_str := a_get_time_str w
|}.

Definition set_percpu (ps : outcome (list pyfloat)) (w : answers) : answers := {|
  a_cpu_count := a_cpu_count w;
  a_cpu_freq := a_cpu_freq w;
  a_cpu_percent := a_cpu_percent w;
  a_cpu_percent_percpu := ps;
  a_virtual_memory := a_virtual_memory w;
  a_boot_time := a_boot_time w;
  a_linux_distribution := a_linux_distribution w;
  a_uname_release := a_uname_release w;
  a_gethostname := a_gethostname w;
  a_get_now := a_get_now w;
  a_get_readable_time := a_get_readable_time w;
  a_get_time_str := a_get_time_str w
|}.

Definition set_memory_total (b : Z) (w : answers) : answers := {|
  a_cpu_count := a_cpu_count w;
  a_cpu_freq := a_cpu_freq w;
  a_cpu_percent := a_cpu_percent w;
  a_cpu_percent_percpu := a_cpu_percent_percpu w;
  a_virtual_memory :=
    Returned {| total := b; available := 5 * 1024 ^ 3;
                percent := float_of_halves 85; used := 3 * 1024 ^ 3 |};
  a_boot_time := a_boot_time w;
  a_linux_distribution := a_linux_distribution w;
  a_uname_release := a_uname_release w;
  a_gethostname := a_gethostname w;
  a_get_now := a_get_now w;
  a_get_readable_time := a_get_readable_time w;
  a_get_time_str := a_get_time_str w
|}.

Definition start `{H : Host} (w : World) : state :=
  {| world := w; calls := []; warnings := [] |}.

(** The hosts and states used to evaluate the functions. *)
Definition h0 : Host :=
  host "Up: $up_time$, Host: $hostname$, Mem: $memory_percent$".

Definition s0 : @state h0 := @start h0 machine.

(** No hostname can be read. *)
Definition s_nameless : @state h0 :=
  @start h0 (set_hostname (Raised (Exception "OSError" "no hostname")) machine).

(** The machine is called "o". *)
Definition s_short_name : @state h0 :=
  @start h0 (set_hostname (Returned "o") machine).

(** The per-core sample is empty. *)
Definition s_no_cores : @state h0 :=
  @start h0 (set_percpu (Returned []) machine).

(** The total memory is reported as [2^1034] bytes. *)
Definition s_huge : @state h0 :=
  @start h0 (set_memory_total (2 ^ 1034) machine).

(** A host without markup, and a template without tokens. *)
Definition h_plain : Host := plain_host "Nothing to fill in.".

Definition s_plain : @state h_plain := @start h_plain machine.

(** A host that answers every call from one table, whatever its state. *)
Definition steady_host (a : answers) (template : string) : Host := {|
  World := unit;
  cpu_count := fun _ w => (a_cpu_count a, w);
  cpu_freq := fun w => (a_cpu_freq a, w);
  cpu_percent := fun w => (a_cpu_percent a, w);
  cpu_percent_percpu := fun w => (a_cpu_percent_percpu a, w);
  virtual_memory := fun w => (a_virtual_memory a, w);
  boot_time := fun w => (a_boot_time a, w);
  linux_distribution := fun w => (a_linux_distribution a, w);
  uname_release := fun w => (a_uname_release a, w);
  gethostname := fun w => (a_gethostname a, w);
  glovar_interval := 60;
  glovar_format_date := "%Y-%m-%d";
  glovar_format_time := "%H:%M:%S";
  glovar_report := template;
  get_now := fun w => (a_get_now a, w);
  get_readable_time := fun _ w => (a_get_readable_time a, w);
  get_time_str := fun _ _ w => (a_get_time_str a, w);
  lang := demo_lang;
  code := demo_code;
  float_repr := demo_float_repr;
  int_sub_float := demo_int_sub_float;
  int_max_str_digits := 4300
|}.



Definition full_template : string :=
  "Every $interval$ s, last $last$: $dist$ $kernel$ on $hostname$, up " ++
  "$up_time$; $cpu_count_physical$/$cpu_count_logical$ cores, " ++
  "$freq_min$ to $freq_max$, now $freq_current$, load $cpu_percent$;" ++
  "$cpu_percent_per$; memory $memory_used$ of $memory_total$, free " ++
  "$memory_available$ ($memory_percent$)".

Definition h_steady : Host := steady_host machine full_template.


Definition s_steady : @state h_steady := @start h_steady tt.


(** The host has neither a core count nor a frequency to give. *)
Definition s_unknown_cpu : @state h0 := @start h0 {|
  a_cpu_count := Returned None;
  a_cpu_freq := Returned None;
  a_cpu_percent := a_cpu_percent machine;
  a_cpu_percent_percpu := a_cpu_percent_percpu machine;
  a_virtual_memory := a_virtual_memory machine;
  a_boot_time := a_boot_time machine;
  a_linux_distribution := a_linux_distribution machine;
  a_uname_release := a_uname_release machine;
  a_gethostname := a_gethostname machine;
  a_get_now := a_get_now machine;
  a_get_readable_time := a_get_readable_time machine;
  a_get_time_str := a_get_time_str machine
|}.

(** The interval is configured as [10^640], in an interpreter that
    converts at most 640 digits. *)
Definition h_long_interval : Host :=
  host_config (10 ^ 640) 640 demo_code "Every $interval$ s".

Definition s_long_interval : @state h_long_interval :=
  @start h_long_interval machine.

(** A pass that raises, to try the orchestrator's block on. *)
Definition broken_pass : string -> @M h0 string :=
  fun _ => raise (Exception "RuntimeError" "broken").

End Demo.

(** ** The vocabulary of the properties *)

(** [pieces] cuts a text at occurrences of [tok]: no piece holds [tok], and
    every cut is at the leftmost occurrence that starts after the previous
    cut (so no occurrence begins inside a piece and runs into the cut). *)
Fixpoint leftmost_cut (tok : string) (pieces : list string) : Prop :=
  match pieces with
  | [] => False
  | [p] => contains tok p = false
  | p :: rest =>
      contains tok (p ++ drop_last tok) = false /\ leftmost_cut tok rest
  end.

(** One pass of the orchestrator, seen from outside: the text is kept or
    the pass's token is replaced by some value. *)
Definition pass_step (tok : string) (before after : string) : Prop :=
  after = before \/ exists status, after = replace tok status before.

(** [after] is reached from [before] by one step per token, in order. *)
Fixpoint pass_chain (toks : list string) (before after : string) : Prop :=
  match toks with
  | [] => after = before
  | tok :: rest =>
      exists mid, pass_step tok before mid /\ pass_chain rest mid after
  end.

(** The double that [get_size] formats, and how often it has divided: the
    count itself below 1024, else its nearest double, divided once per unit
    passed, and once more when it does not fit under "P". *)
Definition divisions (b : Z) : nat :=
  let m := round53 b in
  if b <? 2 ^ 10 then 0
  else if m <? 2 ^ 20 then 1
  else if m <? 2 ^ 30 then 2
  else if m <? 2 ^ 40 then 3
  else if m <? 2 ^ 50 then 4
  else if m <? 2 ^ 60 then 5
  else 6.

Definition scaled (b : Z) : pyfloat :=
  {| fnum := round53 b; fexp := - (10 * Z.of_nat (divisions b)) |}.

Definition unit_of (b : Z) : string :=
  nth (Nat.min (divisions b) 5) units "".

(** The number of bytes that a value and its unit prefix stand for, as an
    exact dyadic number. *)
Definition unit_index (unit : string) : Z :=
  if String.eqb unit "K" then 1
  else if String.eqb unit "M" then 2
  else if String.eqb unit "G" then 3
  else if String.eqb unit "T" then 4
  else if String.eqb unit "P" then 5
  else 0.

Definition denoted_bytes (x : pyfloat) (unit : string) : pyfloat :=
  {| fnum := fnum x; fexp := fexp x + 10 * unit_index unit |}.

(** [x < y], exactly. *)
Definition float_ltb (x y : pyfloat) : bool :=
  let e := Z.min (fexp x) (fexp y) in
  fnum x * 2 ^ (fexp x - e) <? fnum y * 2 ^ (fexp y - e).

(** A value that may stand in a report without making a token: it is not
    empty, has no "$", and is no part of any token. *)
Definition clean_value (v : string) : bool :=
  negb (String.eqb v "") && negb (has_char "$" v) &&
  forallb (fun g => negb (contains v (codename_of g))) all_fields.

(** The double that a variable of [get_size] holds. *)
Definition value_of (n : pynum) : pyfloat :=
  match n with
  | PyInt z => {| fnum := z; fexp := 0 |}
  | PyFloat x => x
  end.

(** How often a character occurs. *)
Fixpoint count_char (c : ascii) (s : string) : nat :=
  match s with
  | EmptyString => 0
  | String d s' => (if Ascii.eqb c d then 1 else 0) + count_char c s'
  end.

(** Every character of the text passes the test. *)
Fixpoint all_chars (test : ascii -> bool) (s : string) : bool :=
  match s with
  | EmptyString => true
  | String c s' => test c && all_chars test s'
  end.

(** A decimal digit or the minus sign. *)
Definition numeric (c : ascii) : bool := has_char c "0123456789-".

Section HostVocabulary.
Context `{H : Host}.

(** The state after one more warning. *)
Definition logged (s : state) (msg : string) : state :=
  {| world := world s; calls := calls s; warnings := warnings s ++ [msg] |}.

(** The state after one more call, which left the host in [w]. *)
Definition called (s : state) (name : string) (w : World) : state :=
  {| world := w; calls := calls s ++ [name]; warnings := warnings s |}.

(** The line of core number [index] (counted from 1) as the code builds it,
    without its newline. *)
Definition core_line (index : nat) (percent : pyfloat) : string :=
  tabs4 ++ lang "core" ++ tab ++ str_int (Z.of_nat index) ++ lang "colon"
        ++ code (float_repr percent ++ "%").

(** The line as the specification's template has it: no tab after the core
    label, and the percentage bare. *)
Definition template_line (index : nat) (percent : pyfloat) : string :=
  tabs4 ++ lang "core" ++ str_int (Z.of_nat index) ++ lang "colon"
        ++ float_repr percent ++ "%".

Fixpoint lines_from (mk : nat -> pyfloat -> string) (index : nat)
    (percents : list pyfloat) : list string :=
  match percents with
  | [] => []
  | p :: rest => mk index p :: lines_from mk (S index) rest
  end.

(** What one pass does to the text and to the state: nothing when its
    token is absent; the token replaced by the value when the fetch
    returns; the text kept and a warning logged when the fetch raises. *)
Definition pass_result (f : field) (before : string) (s : state)
    (after : string) (s' : state) : Prop :=
  (contains (codename_of f) before = false /\ after = before /\ s' = s) \/
  (contains (codename_of f) before = true /\
   exists status,
     status_of f s = (Returned status, s') /\
     after = replace (codename_of f) status before) \/
  (contains (codename_of f) before = true /\
   exists e s1,
     status_of f s = (Raised e, s1) /\ after = before /\
     s' = logged s1 (label_of f ++ " error: " ++ exn_str e)).

(** The passes of the fields [fs] in order, each one starting from the
    text and the state that the one before it left. *)
Fixpoint report_chain (fs : list field) (before : string) (s : state)
    (after : string) (s' : state) : Prop :=
  match fs with
  | [] => after = before /\ s' = s
  | f :: rest =>
      exists mid s1,
        pass_result f before s mid s1 /\ report_chain rest mid s1 after s'
  end.

(** Every fetch succeeds, in every state, with a clean value. *)
Definition clean_host : Prop :=
  forall f s, exists v s',
    status_of f s = (Returned v, s') /\ clean_value v = true.

(** A computation that only adds to the record of calls, at most [nc]
    of them, and logs nothing. *)
Definition quiet {A : Type} (nc : nat) (m : M A) : Prop :=
  forall s, exists cs,
    calls (snd (m s)) = (calls s ++ cs)%list /\
    warnings (snd (m s)) = warnings s /\
    (List.length cs <= nc)%nat.

(** A computation that only adds to the two records: at most [nc] calls,
    and at most one warning, none at all when it raises. *)
Definition one_warning {A : Type} (nc : nat) (m : M A) : Prop :=
  forall s, exists cs ws,
    calls (snd (m s)) = (calls s ++ cs)%list /\
    warnings (snd (m s)) = (warnings s ++ ws)%list /\
    (List.length cs <= nc)%nat /\
    match fst (m s) with
    | Returned _ => (List.length ws <= 1)%nat
    | Raised _ => ws = []
    end.

(** The calls to the host that the fetch of a field may make. *)
Definition call_budget (f : field) : nat :=
  match f with
  | Interval => 0
  | UpTime => 3
  | _ => 1
  end.

End HostVocabulary.

(** * Properties *)

(** ** The model against Python *)

Section ModelChecks.
Import Demo.

Example replace_all_occurrences :
  replace "$a$" "7" "x$a$y$a$" = "x7y7".
Proof. reflexivity. Qed.

Example replace_leftmost_first :
  replace "$dist$" "X" "$dist$kernel$" = "Xkernel$".
Proof. reflexivity. Qed.

Example replace_empty_pattern :
  replace "" "-" "abc" = "-a-b-c-".
Proof. reflexivity. Qed.

Example contains_examples :
  contains "$cpu_percent$" "$cpu_percent_per$" = false /\
  contains "" "abc" = true /\
  contains "bc" "abc" = true.
Proof. repeat split. Qed.

Example str_int_examples :
  str_int 0 = "0" /\ str_int 42 = "42" /\ str_int (-5) = "-5".
Proof. repeat split. Qed.

(** [f"{0.125:.2f}"], [f"{0.375:.2f}"], [f"{2.5:.0f}"], [f"{3.5:.0f}"] and
    [f"{-0.0009765625:.2f}"]: ties go to the even digit. *)
Example format_fixed_examples :
  format_fixed 2 {| fnum := 1; fexp := -3 |} = "0.12" /\
  format_fixed 2 {| fnum := 3; fexp := -3 |} = "0.38" /\
  format_fixed 0 {| fnum := 5; fexp := -1 |} = "2" /\
  format_fixed 0 {| fnum := 7; fexp := -1 |} = "4" /\
  format_fixed 2 {| fnum := -1; fexp := -10 |} = "-0.00".
Proof. repeat split. Qed.

(** [(2**60 - 1) / 1024 == 2.0**50], and [2**1034 / 1024] raises. *)
Example truediv_examples :
  truediv (PyInt (2 ^ 60 - 1)) 1024 =
  Returned (PyFloat {| fnum := 2 ^ 60; fexp := -10 |}) /\
  truediv (PyInt (2 ^ 1034)) 1024 =
  Raised (Exception "OverflowError"
            "integer division result too large for a float") /\
  round53 (2 ^ 1034 - 2 ^ 980 - 1) = 2 ^ 1034 - 2 ^ 981.
Proof. repeat split; vm_compute; reflexivity. Qed.

Example get_size_examples :
  map (fun b => get_size_body b "B")
      [0; 1023; 1024; 1536; 1024 ^ 2 - 1; 512 * 1024 ^ 2; 1024 ^ 5; -5] =
  map Returned
      ["0.00 B"; "1023.00 B"; "1.00 KB"; "1.50 KB"; "1024.00 KB";
       "512.00 MB"; "1.00 PB"; "-5.00 B"].
Proof. vm_compute. reflexivity. Qed.

(** The end-to-end example of the specification: one hour after boot, on
    "srv1", with 42.5% of the memory in use. *)
Example get_status_example :
  fst (@get_status h0 s0) = Returned "Up: 1:00:00, Host: srv1, Mem: 42.5%".
Proof. reflexivity. Qed.

End ModelChecks.

(** ** Strings *)

Section StringFacts.

Lemma app_empty_r (s : string) : s ++ "" = s.
Proof. induction s as [|c s IH]; simpl; [reflexivity | now rewrite IH]. Qed.

Lemma app_assoc_str (a b c : string) : (a ++ b) ++ c = a ++ b ++ c.
Proof. induction a as [|x a IH]; simpl; [reflexivity | now rewrite IH]. Qed.

Lemma length_app (a b : string) :
  String.length (a ++ b) = (String.length a + String.length b)%nat.
Proof. induction a as [|x a IH]; simpl; [reflexivity | now rewrite IH]. Qed.

Lemma prefix_cons (c d : ascii) (t s : string) :
  String.prefix (String c t) (String d s) = true <->
  c = d /\ String.prefix t s = true.
Proof.
  simpl. destruct (ascii_dec c d) as [->|ne].
  - tauto.
  - split; [discriminate | intros [e _]; contradiction].
Qed.

Lemma prefix_app (a b : string) : String.prefix a (a ++ b) = true.
Proof.
  induction a as [|x a IH]; simpl.
  - now destruct b.
  - destruct (ascii_dec x x); [exact IH | contradiction].
Qed.

Lemma prefix_split (a s : string) :
  String.prefix a s = true -> exists r, s = a ++ r.
Proof.
  revert s. induction a as [|x a IH]; intros s P.
  - exists s. reflexivity.
  - destruct s as [|y s]; [discriminate|].
    apply prefix_cons in P. destruct P as [-> P].
    destruct (IH _ P) as [r ->]. exists r. reflexivity.
Qed.

Lemma prefix_app_mono (t a b : string) :
  String.prefix t a = true -> String.prefix t (a ++ b) = true.
Proof.
  intros P. destruct (prefix_split _ _ P) as [r ->].
  rewrite app_assoc_str. apply prefix_app.
Qed.

Lemma prefix_length (t s : string) :
  String.prefix t s = true -> (String.length t <= String.length s)%nat.
Proof.
  intros P. destruct (prefix_split _ _ P) as [r ->].
  rewrite length_app. lia.
Qed.

Lemma contains_prefix (t s : string) :
  String.prefix t s = true -> contains t s = true.
Proof. intros P. destruct s; simpl in *; rewrite P; reflexivity. Qed.

Lemma contains_cons (t : string) (c : ascii) (s : string) :
  contains t (String c s) = String.prefix t (String c s) || contains t s.
Proof. reflexivity. Qed.

Lemma contains_app_r (t a b : string) :
  contains t b = true -> contains t (a ++ b) = true.
Proof.
  intros C. induction a as [|x a IH]; [exact C|].
  change (String x a ++ b) with (String x (a ++ b)).
  rewrite contains_cons, IH. apply orb_true_r.
Qed.

Lemma contains_app_l (t a b : string) :
  contains t a = true -> contains t (a ++ b) = true.
Proof.
  induction a as [|x a IH]; intros C.
  - simpl in C. rewrite orb_false_r in C.
    destruct t; [|discriminate]. destruct b; reflexivity.
  - change (String x a ++ b) with (String x (a ++ b)).
    rewrite contains_cons in *. apply orb_true_iff in C.
    destruct C as [P|C].
    + change (String x (a ++ b)) with (String x a ++ b).
      rewrite (prefix_app_mono _ _ b P). reflexivity.
    + rewrite (IH C). apply orb_true_r.
Qed.

Lemma contains_short (t s : string) :
  (String.length s < String.length t)%nat -> contains t s = false.
Proof.
  induction s as [|c s IH]; intros L.
  - destruct t; [simpl in L; lia | reflexivity].
  - rewrite contains_cons. rewrite IH by (simpl in L; lia).
    rewrite orb_false_r.
    destruct (String.prefix t (String c s)) eqn:P; [|reflexivity].
    apply prefix_length in P. lia.
Qed.

Lemma length_drop_last (t : string) :
  String.length (drop_last t) = Nat.pred (String.length t).
Proof.
  induction t as [|c t IH]; [reflexivity|].
  destruct t as [|d t]; [reflexivity|].
  change (drop_last (String c (String d t)))
    with (String c (drop_last (String d t))).
  simpl String.length in *. rewrite IH. reflexivity.
Qed.

Lemma drop_last_app_char (a : string) (c : ascii) :
  drop_last (a ++ String c "") = a.
Proof.
  induction a as [|x a IH]; [reflexivity|].
  change (String x a ++ String c "") with (String x (a ++ String c "")).
  destruct (a ++ String c "") eqn:E.
  - destruct a; discriminate.
  - simpl. simpl in IH. rewrite IH. reflexivity.
Qed.

(** A string that is not empty is its [drop_last] followed by its last
    character. *)
Lemma drop_last_split (t : string) :
  t <> "" -> exists c, t = drop_last t ++ String c "".
Proof.
  induction t as [|x t IH]; intros N; [contradiction|].
  destruct t as [|d t].
  - exists x. reflexivity.
  - destruct IH as [c E]; [discriminate|].
    exists c. change (drop_last (String x (String d t)))
      with (String x (drop_last (String d t))).
    simpl. simpl in E. rewrite <- E. reflexivity.
Qed.

Lemma join_cons (sep p q : string) (rest : list string) :
  join sep (p :: q :: rest) = p ++ sep ++ join sep (q :: rest).
Proof. reflexivity. Qed.

End StringFacts.

(** ** [str.replace] *)

Section ReplaceFacts.
Variables (o : ascii) (old' new : string).
Let old := String o old'.

Lemma replace_from_skip (a r : string) :
  replace_from old new (String.length a) (a ++ r) = replace_from old new 0 r.
Proof.
  induction a as [|x a IH]; [reflexivity | exact IH].
Qed.

Lemma replace_empty : replace old new "" = "".
Proof. reflexivity. Qed.

(** At a match the token is consumed and scanning goes on behind it. *)
Lemma replace_match (r : string) :
  replace old new (old ++ r) = new ++ replace old new r.
Proof.
  unfold replace, old.
  change (String o old' ++ r) with (String o (old' ++ r)).
  cbn [replace_from].
  change (String o (old' ++ r)) with (String o old' ++ r).
  rewrite prefix_app. cbn [String.length Nat.pred].
  rewrite replace_from_skip. reflexivity.
Qed.

(** Elsewhere one character is copied. *)
Lemma replace_copy (c : ascii) (s : string) :
  String.prefix old (String c s) = false ->
  replace old new (String c s) = String c (replace old new s).
Proof.
  intros P. unfold replace, old in *. cbn [replace_from].
  rewrite P. reflexivity.
Qed.

(** Induction along the scan of [replace]. *)
Lemma replace_scan_ind (P : string -> string -> Prop) :
  P "" "" ->
  (forall r out, P r out -> P (old ++ r) (new ++ out)) ->
  (forall c s out, String.prefix old (String c s) = false ->
                   P s out -> P (String c s) (String c out)) ->
  forall s, P s (replace old new s).
Proof.
  intros P0 Pm Pc s.
  remember (String.length s) as n eqn:L.
  revert s L. induction n as [n IH] using lt_wf_ind. intros s L.
  destruct s as [|c s]; [exact P0|].
  destruct (String.prefix old (String c s)) eqn:E.
  - destruct (prefix_split _ _ E) as [r Er].
    rewrite Er, replace_match. apply Pm.
    apply (IH (String.length r)); [|reflexivity].
    subst n. rewrite Er, length_app. unfold old. simpl. lia.
  - rewrite replace_copy by exact E. apply Pc; [exact E|].
    apply (IH (String.length s)); [|reflexivity].
    subst n. simpl. lia.
Qed.

(** Without an occurrence nothing changes. *)
Lemma replace_absent (s : string) :
  contains old s = false -> replace old new s = s.
Proof.
  induction s as [|c s IH]; intros C; [reflexivity|].
  rewrite contains_cons in C. apply orb_false_iff in C. destruct C as [P C].
  rewrite replace_copy by exact P. now rewrite IH.
Qed.

(** [replace] is [new.join(text.split(old))]: the text is cut at the
    leftmost occurrences, and the pieces are put together again around the
    new value. *)
Lemma replace_cut (s : string) :
  exists pieces,
    s = join old pieces /\
    replace old new s = join new pieces /\
    leftmost_cut old pieces.
Proof.
  apply (replace_scan_ind (fun s out =>
    exists pieces, s = join old pieces /\ out = join new pieces /\
                   leftmost_cut old pieces)).
  - exists [""]. repeat split.
  - intros r out (pieces & E1 & E2 & L).
    exists ("" :: pieces).
    destruct pieces as [|p ps]; [contradiction|].
    rewrite !join_cons, <- E1, <- E2. repeat split.
    + apply contains_short. cbn [append]. rewrite length_drop_last.
      unfold old. simpl. lia.
    + exact L.
  - intros c s' out P (pieces & E1 & E2 & L).
    destruct pieces as [|p ps]; [contradiction|].
    exists (String c p :: ps).
    destruct ps as [|p' ps].
    + cbn [join leftmost_cut] in *. subst. repeat split.
      rewrite contains_cons, P, L. reflexivity.
    + rewrite join_cons in E1, E2. rewrite !join_cons, E1, E2.
      destruct L as [L1 L2]. repeat split; [|exact L2].
      change (String c p ++ drop_last old)
        with (String c (p ++ drop_last old)).
      rewrite contains_cons, L1, orb_false_r.
      destruct (String.prefix old (String c (p ++ drop_last old))) eqn:Q;
        [|reflexivity].
      exfalso. rewrite E1 in P.
      destruct (drop_last_split old) as [z Z]; [discriminate|].
      rewrite Z in P at 2.
      rewrite app_assoc_str, <- (app_assoc_str p) in P.
      change (String c ((p ++ drop_last old) ++
                String z "" ++ join old (p' :: ps)))
        with (String c (p ++ drop_last old) ++
                String z "" ++ join old (p' :: ps)) in P.
      rewrite (prefix_app_mono _ _ _ Q) in P. discriminate.
Qed.

End ReplaceFacts.

(** ** When the replaced text holds no token any more *)

Section ReplaceClean.

Lemma has_char_app (c : ascii) (a b : string) :
  has_char c (a ++ b) = has_char c a || has_char c b.
Proof.
  induction a as [|x a IH]; [reflexivity|].
  simpl. rewrite IH. apply orb_assoc.
Qed.

Lemma prefix_app_cases (p x y : string) :
  String.prefix p (x ++ y) = true ->
  String.prefix p x = true \/ exists q, p = x ++ q.
Proof.
  revert p. induction x as [|c x IH]; intros p P.
  - right. now exists p.
  - destruct p as [|d p]; [now left|].
    change (String c x ++ y) with (String c (x ++ y)) in P.
    apply prefix_cons in P. destruct P as [-> P].
    destruct (IH p P) as [Q|[q ->]].
    + left. apply prefix_cons. now split.
    + right. now exists q.
Qed.

(** A non-empty end of a text ends with the text's last character. *)
Lemma suffix_last_char (a p body : string) (z : ascii) :
  a ++ p = body ++ String z "" -> p <> "" -> has_char z p = true.
Proof.
  revert body. induction a as [|c a IH]; intros body E N.
  - simpl in E. subst p. rewrite has_char_app. simpl.
    rewrite Ascii.eqb_refl. apply orb_true_r.
  - destruct body as [|c' body].
    + simpl in E. injection E as _ E.
      destruct a, p; try discriminate. contradiction.
    + simpl in E. injection E as _ E. now apply (IH body).
Qed.

Variables (o z : ascii) (old' new : string).
Let old := String o old'.

Hypothesis new_not_empty : new <> "".
Hypothesis first_not_in_new : has_char o new = false.
Hypothesis last_not_in_new : has_char z new = false.
Hypothesis old_ends : exists body, old = body ++ String z "".
Hypothesis new_not_in_old : contains new old = false.

(** Past a text without the token's first character, an occurrence can
    only begin later. *)
Lemma contains_skip (a b : string) :
  has_char o a = false -> contains old (a ++ b) = contains old b.
Proof.
  induction a as [|x a IH]; intros C; [reflexivity|].
  simpl in C. apply orb_false_iff in C. destruct C as [C1 C2].
  change (String x a ++ b) with (String x (a ++ b)).
  rewrite contains_cons, (IH C2).
  replace (String.prefix old (String x (a ++ b))) with false; [reflexivity|].
  symmetry. unfold old. simpl.
  destruct (ascii_dec o x) as [->|ne]; [|reflexivity].
  rewrite Ascii.eqb_refl in C1. discriminate.
Qed.

(** An end of the token that begins the new value is empty. *)
Lemma token_end_before_value (a p out : string) :
  old = a ++ p -> String.prefix p (new ++ out) = true -> p = "".
Proof.
  intros E P. destruct p as [|d p]; [reflexivity|]. exfalso.
  destruct old_ends as [body B]. rewrite E in B.
  assert (Z : has_char z (String d p) = true)
    by (apply (suffix_last_char a _ body); [exact B | discriminate]).
  destruct (prefix_app_cases _ _ _ P) as [Q|[q Q]].
  - destruct (prefix_split _ _ Q) as [t T].
    rewrite T, has_char_app, Z in last_not_in_new. discriminate.
  - rewrite Q in E. rewrite E in new_not_in_old.
    rewrite contains_app_r in new_not_in_old; [discriminate|].
    apply contains_prefix, prefix_app.
Qed.

Lemma replace_clean (s : string) :
  contains old (replace old new s) = false.
Proof.
  enough (G : (forall a p, old = a ++ p ->
                 String.prefix p (replace old new s) = true ->
                 String.prefix p s = true) /\
              contains old (replace old new s) = false) by apply G.
  apply (replace_scan_ind o old' new (fun s out =>
    (forall a p, old = a ++ p ->
       String.prefix p out = true -> String.prefix p s = true) /\
    contains old out = false)).
  - split; [tauto | reflexivity].
  - intros r out [IH1 IH2]. split.
    + intros a p E P.
      rewrite (token_end_before_value a p out E P).
      now destruct (_ ++ r).
    + fold old. rewrite (contains_skip new out first_not_in_new). exact IH2.
  - intros c s' out P [IH1 IH2].
    assert (Q : forall a p, old = a ++ p ->
              String.prefix p (String c out) = true ->
              String.prefix p (String c s') = true).
    { intros a p E Pp. destruct p as [|d p]; [reflexivity|].
      apply prefix_cons in Pp. destruct Pp as [-> Pp].
      apply prefix_cons. split; [reflexivity|].
      apply (IH1 (a ++ String c "")); [|exact Pp].
      rewrite E, app_assoc_str. reflexivity. }
    split; [exact Q|]. fold old.
    rewrite contains_cons, IH2, orb_false_r.
    destruct (String.prefix old (String c out)) eqn:E; [|reflexivity].
    pose proof (Q "" old eq_refl E) as R. unfold old in R. congruence.
Qed.

End ReplaceClean.

Lemma contains_join (t sep p : string) (pieces : list string) :
  In p pieces -> contains t p = true -> contains t (join sep pieces) = true.
Proof.
  induction pieces as [|q rest IH]; intros I C; [contradiction|].
  destruct rest as [|q' rest].
  - destruct I as [->|[]]. exact C.
  - rewrite join_cons. destruct I as [->|I].
    + now apply contains_app_l.
    + apply contains_app_r, contains_app_r. now apply IH.
Qed.

Lemma leftmost_cut_two (tok : string) (pieces : list string) :
  leftmost_cut tok pieces -> contains tok (join tok pieces) = true ->
  (1 < List.length pieces)%nat.
Proof.
  destruct pieces as [|p [|q rest]]; simpl; intros L C.
  - contradiction.
  - congruence.
  - lia.
Qed.

(** ** A value between two texts *)

Section ValueBoundary.

Lemma prefix_app_split (p x y : string) :
  String.prefix p (x ++ y) = true ->
  String.prefix p x = true \/
  exists q, p = x ++ q /\ String.prefix q y = true.
Proof.
  revert p. induction x as [|c x IH]; intros p P.
  - right. now exists p.
  - destruct p as [|d p]; [now left|].
    change (String c x ++ y) with (String c (x ++ y)) in P.
    apply prefix_cons in P. destruct P as [-> P].
    destruct (IH p P) as [Q|(q & -> & Q)].
    + left. apply prefix_cons. now split.
    + right. now exists q.
Qed.

Variables (o z : ascii) (pat' new : string).
Let pat := String o pat'.

Hypothesis first_not_in_new : has_char o new = false.
Hypothesis last_not_in_new : has_char z new = false.
Hypothesis pat_ends : exists body, pat = body ++ String z "".
Hypothesis new_not_in_pat : contains new pat = false.

(** An occurrence of the pattern in [a ++ new ++ b] lies in [a] or in
    [b]: it can neither begin nor end inside the value, nor span it. *)
Lemma contains_around_value (a b : string) :
  contains pat (a ++ new ++ b) = true ->
  contains pat a = true \/ contains pat b = true.
Proof.
  induction a as [|c a IH]; intros C.
  - right. cbn [append] in C.
    rewrite (contains_skip o z pat' new) in C; assumption.
  - change (String c a ++ new ++ b) with (String c (a ++ new ++ b)) in C.
    rewrite contains_cons in C. apply orb_true_iff in C.
    destruct C as [P|C].
    + change (String c (a ++ new ++ b))
        with (String c a ++ (new ++ b)) in P.
      left. destruct (prefix_app_split _ _ _ P) as [Q|(q & E & Q)].
      * now apply contains_prefix.
      * rewrite (token_end_before_value o z pat' new last_not_in_new
                   pat_ends new_not_in_pat (String c a) q b E Q) in E.
        rewrite app_empty_r in E. fold pat. rewrite E.
        apply contains_prefix. rewrite <- (app_empty_r (String c a)) at 2.
        apply prefix_app.
    + destruct (IH C) as [A|B]; [left|now right].
      rewrite contains_cons, A. apply orb_true_r.
Qed.

Lemma contains_join_value (pieces : list string) :
  contains pat (join new pieces) = true ->
  exists q, In q pieces /\ contains pat q = true.
Proof.
  induction pieces as [|q rest IH]; intros C.
  - discriminate C.
  - destruct rest as [|q' rest].
    + exists q. split; [now left | exact C].
    + rewrite join_cons in C.
      destruct (contains_around_value _ _ C) as [A|B].
      * exists q. split; [now left | exact A].
      * destruct (IH B) as (r & I & R). exists r. split; [now right | exact R].
Qed.

(** Replacing some token by the value brings no occurrence of the
    pattern into a text that had none. *)
Lemma replace_brings_no_pattern (t : ascii) (tok' s : string) :
  contains pat s = false ->
  contains pat (replace (String t tok') new s) = false.
Proof.
  intros C.
  destruct (replace_cut t tok' new s) as (pieces & E1 & E2 & _).
  rewrite E2.
  destruct (contains pat (join new pieces)) eqn:J; [|reflexivity].
  destruct (contains_join_value pieces J) as (q & I & Q).
  rewrite E1, (contains_join pat (String t tok') q pieces I Q) in C.
  discriminate C.
Qed.

End ValueBoundary.

(** ** The shape shared by the substitution functions *)

Section FillFacts.
Context `{H : Host}.
Variables (codename label : string) (status : M string).

Lemma fill_absent (text : string) (s : state) :
  contains codename text = false ->
  fill codename label status text s = (Returned text, s).
Proof. intros C. unfold fill, try_except. rewrite C. reflexivity. Qed.

Lemma fill_success (text st : string) (s s' : state) :
  contains codename text = true ->
  status s = (Returned st, s') ->
  fill codename label status text s = (Returned (replace codename st text), s').
Proof.
  intros C E. unfold fill, try_except. rewrite C. cbn [negb].
  unfold bind. rewrite E. reflexivity.
Qed.

Lemma fill_failure (text : string) (e : exn) (s s' : state) :
  contains codename text = true ->
  status s = (Raised e, s') ->
  fill codename label status text s =
  (Returned text, logged s' (label ++ " error: " ++ exn_str e)).
Proof.
  intros C E. unfold fill, try_except. rewrite C. cbn [negb].
  unfold bind. rewrite E. reflexivity.
Qed.

(** Whatever happens, a text comes back: the input or the input with the
    token replaced. *)
Lemma fill_returns (text : string) (s : state) :
  exists r s', fill codename label status text s = (Returned r, s') /\
               pass_step codename text r.
Proof.
  destruct (contains codename text) eqn:C.
  - destruct (status s) as [[st|e] s'] eqn:E.
    + exists (replace codename st text), s'. split.
      * now apply fill_success.
      * right. now exists st.
    + exists text, (logged s' (label ++ " error: " ++ exn_str e)).
      split; [exact (fill_failure text e s s' C E) | now left].
  - exists text, s. split; [now apply fill_absent | now left].
Qed.

End FillFacts.

Section FieldFacts.
Context `{H : Host}.

(** The three tables say what the functions do. *)
Lemma substitute_is_fill (f : field) :
  substitute f = fill (codename_of f) (label_of f) (status_of f).
Proof. destruct f; reflexivity. Qed.

Lemma codename_shape (f : field) :
  exists old', codename_of f = String "$" old'.
Proof. destruct f; eexists; reflexivity. Qed.

Lemma codename_end (f : field) :
  exists body, codename_of f = body ++ "$".
Proof.
  destruct f;
    match goal with
    | |- exists body, ?t = _ => exists (drop_last t)
    end; reflexivity.
Qed.

Lemma codename_not_empty (f : field) : codename_of f <> "".
Proof. destruct (codename_shape f) as [old' ->]. discriminate. Qed.

(** No token lies inside the token of another field. *)
Lemma codenames_apart (f g : field) :
  g <> f -> contains (codename_of f) (codename_of g) = false.
Proof. destruct f, g; intros N; try reflexivity; contradiction. Qed.

Lemma all_fields_complete (f : field) : In f all_fields.
Proof. destruct f; simpl; tauto. Qed.

Lemma get_status_passes :
  get_status = run_passes (map substitute all_fields) glovar_report.
Proof. reflexivity. Qed.

(** ** The block of the orchestrator *)

Lemma assign_each_noop (passes : list (string -> M string)) (r : string)
    (s : state) :
  Forall (fun pass => pass r s = (Returned r, s)) passes ->
  assign_each passes r s = ((r, None), s).
Proof.
  induction 1 as [|pass rest E _ IH]; simpl; [reflexivity|].
  rewrite E. exact IH.
Qed.

Lemma assign_each_fields (fs : list field) (start : string) (s : state) :
  exists r s',
    assign_each (map substitute fs) start s = ((r, None), s') /\
    pass_chain (map codename_of fs) start r.
Proof.
  revert start s. induction fs as [|f fs IH]; intros start s.
  - exists start, s. split; reflexivity.
  - destruct (fill_returns (codename_of f) (label_of f) (status_of f) start s)
      as (mid & s1 & E & P).
    destruct (IH mid s1) as (r & s' & E' & C).
    exists r, s'. split.
    + simpl. rewrite substitute_is_fill, E. exact E'.
    + exists mid. split; assumption.
Qed.

Lemma fill_result (f : field) (text : string) (s : state) :
  exists r s',
    substitute f text s = (Returned r, s') /\ pass_result f text s r s'.
Proof.
  rewrite substitute_is_fill. unfold pass_result.
  destruct (contains (codename_of f) text) eqn:C.
  - destruct (status_of f s) as [[st|e] s'] eqn:E.
    + exists (replace (codename_of f) st text), s'. split.
      * now apply fill_success.
      * right. left. split; [reflexivity|]. now exists st.
    + exists text, (logged s' (label_of f ++ " error: " ++ exn_str e)).
      split; [exact (fill_failure _ _ _ text e s s' C E)|].
      right. right. split; [reflexivity|]. now exists e, s'.
  - exists text, s. split; [now apply fill_absent|]. now left.
Qed.

Lemma assign_each_chain (fs : list field) (start : string) (s : state) :
  exists r s',
    assign_each (map substitute fs) start s = ((r, None), s') /\
    report_chain fs start s r s'.
Proof.
  revert start s. induction fs as [|f fs IH]; intros start s.
  - exists start, s. repeat split.
  - destruct (fill_result f start s) as (mid & s1 & E & P).
    destruct (IH mid s1) as (r & s' & E' & C).
    exists r, s'. split.
    + simpl. rewrite E. exact E'.
    + exists mid, s1. split; assumption.
Qed.

(** A block never lets an exception out: it returns the value that
    [result] had when the block was left. *)
Lemma run_passes_returns (passes : list (string -> M string))
    (start : string) (s : state) :
  exists s',
    run_passes passes start s =
    (Returned (fst (fst (assign_each passes start s))), s').
Proof.
  unfold run_passes.
  destruct (assign_each passes start s) as [[r [e|]] s1];
    eexists; reflexivity.
Qed.

(** A pass that raises ends the block with what the passes before it had
    reached. *)
Lemma assign_each_stops (done rest : list (string -> M string))
    (pass : string -> M string) (start mid : string) (e : exn)
    (s s1 s2 : state) :
  assign_each done start s = ((mid, None), s1) ->
  pass mid s1 = (Raised e, s2) ->
  assign_each (done ++ pass :: rest) start s = ((mid, Some e), s2).
Proof.
  revert start s. induction done as [|d done IH]; intros start s E F.
  - simpl in E. injection E as -> ->. simpl. rewrite F. reflexivity.
  - simpl in *. destruct (d start s) as [[r|e'] s'].
    + now apply IH.
    + discriminate.
Qed.

End FieldFacts.

(** ** The field substitution functions *)

Section FieldClaims.
Context `{H : Host}.

(** C1 (amended).  When the token of a field is in the text and its
    metric is fetched and formatted, the function returns the text with
    every occurrence of the token (cut from the left, as [str.replace]
    does) replaced by that one value; the pieces between the occurrences
    come back unchanged and in order.  A token of another field that lies
    in a piece is still there.  When the value is not empty, has no "$"
    and is no part of a token, that token is in the output only where a
    piece holds it.  No token of another field contains this one. *)
Theorem token_replaced_everywhere (f : field) (text status : string)
    (s s' : state) :
  contains (codename_of f) text = true ->
  status_of f s = (Returned status, s') ->
  exists pieces,
    text = join (codename_of f) pieces /\
    leftmost_cut (codename_of f) pieces /\
    (1 < List.length pieces)%nat /\
    substitute f text s = (Returned (join status pieces), s') /\
    (forall g p, In p pieces ->
       contains (codename_of g) p = true ->
       contains (codename_of g) (join status pieces) = true) /\
    (forall g,
       status <> "" -> has_char "$" status = false ->
       contains status (codename_of g) = false ->
       contains (codename_of g) (join status pieces) = true ->
       exists p, In p pieces /\ contains (codename_of g) p = true) /\
    (forall g, g <> f -> contains (codename_of f) (codename_of g) = false).
Proof.
  intros C E.
  destruct (codename_shape f) as [old' T].
  destruct (replace_cut "$" old' status text) as (pieces & E1 & E2 & L).
  rewrite <- T in E1, E2, L.
  exists pieces. repeat split.
  - exact E1.
  - exact L.
  - apply (leftmost_cut_two (codename_of f)); [exact L | now rewrite <- E1].
  - rewrite substitute_is_fill, <- E2. now apply fill_success.
  - intros g p I Cp. now apply contains_join with (p := p).
  - intros g N D S J.
    destruct (codename_shape g) as [g' G].
    destruct (codename_end g) as [body B].
    rewrite G in *.
    apply (contains_join_value "$" "$" g' status); try assumption.
    now exists body.
  - intros g N. now apply codenames_apart.
Qed.

(** C2 (amended).  When the expression that fetches and formats the
    metric raises, the function returns its input unchanged and raises
    nothing; if the token was in the text, one warning is logged.  An
    error inside [get_size] does not reach the function: [get_size] logs
    it and returns "", and each of the three memory-size functions then
    puts "" in the place of its token. *)
Theorem failure_keeps_input (text : string) (s : state) :
  (forall f e s',
     status_of f s = (Raised e, s') ->
     fst (substitute f text s) = Returned text /\
     (contains (codename_of f) text = true ->
      substitute f text s =
      (Returned text, logged s' (label_of f ++ " error: " ++ exn_str e))))
  /\
  (forall vm w' e,
     virtual_memory (world s) = (Returned vm, w') ->
     (contains "$memory_total$" text = true ->
      get_size_body (total vm) "B" = Raised e ->
      get_mem_total text s =
      (Returned (replace "$memory_total$" "" text),
       logged (called s "virtual_memory" w')
         ("Get size error: " ++ exn_str e))) /\
     (contains "$memory_available$" text = true ->
      get_size_body (available vm) "B" = Raised e ->
      get_mem_available text s =
      (Returned (replace "$memory_available$" "" text),
       logged (called s "virtual_memory" w')
         ("Get size error: " ++ exn_str e))) /\
     (contains "$memory_used$" text = true ->
      get_size_body (used vm) "B" = Raised e ->
      get_mem_used text s =
      (Returned (replace "$memory_used$" "" text),
       logged (called s "virtual_memory" w')
         ("Get size error: " ++ exn_str e)))) /\
  (forall b suffix e,
     get_size_body b suffix = Raised e ->
     get_size b suffix s =
     (Returned "", logged s ("Get size error: " ++ exn_str e))).
Proof.
  split; [|split].
  3: { intros b suffix e Q. unfold get_size, try_except. rewrite Q.
       reflexivity. }
  - intros f e s' E. rewrite substitute_is_fill.
    destruct (contains (codename_of f) text) eqn:C.
    + rewrite (fill_failure _ _ _ text e s s' C E). split; reflexivity.
    + rewrite (fill_absent _ _ _ text s C). split; [reflexivity|discriminate].
  - intros vm w' e V.
    assert (G : forall b st,
              get_size_body b "B" = Raised e ->
              get_size b "B" st =
              (Returned "", logged st ("Get size error: " ++ exn_str e))).
    { intros b st Q. unfold get_size, try_except. rewrite Q. reflexivity. }
    repeat split; intros C Q.
    + unfold get_mem_total. apply fill_success; [exact C|].
      unfold bind, os_call. rewrite V. now apply G.
    + unfold get_mem_available. apply fill_success; [exact C|].
      unfold bind, os_call. rewrite V. now apply G.
    + unfold get_mem_used. apply fill_success; [exact C|].
      unfold bind, os_call. rewrite V. now apply G.
Qed.

(** C3.  A function whose token is not in the text returns the text and
    leaves the state as it was: no call to the host, no warning.  Hence a
    template without any of the tokens comes back from [get_status]
    unchanged, again with no call made. *)
Theorem absent_token_is_noop (text : string) (s : state) :
  (forall f, contains (codename_of f) text = false ->
             substitute f text s = (Returned text, s)) /\
  ((forall f, contains (codename_of f) glovar_report = false) ->
   get_status s = (Returned glovar_report, s)).
Proof.
  split.
  - intros f C. rewrite substitute_is_fill. now apply fill_absent.
  - intros A. rewrite get_status_passes. unfold run_passes.
    rewrite assign_each_noop; [reflexivity|].
    apply Forall_forall. intros pass I.
    apply in_map_iff in I. destruct I as (f & <- & _).
    rewrite substitute_is_fill. apply fill_absent, A.
Qed.

(** C6.  [get_status] always returns a text and never raises: the text
    and the state are the ones that the seventeen passes leave, run in
    order from the template, each on what the pass before it returned (a
    pass replaces its token when its fetch returns, and keeps the text
    when its token is absent or its fetch raises).  The [try] block
    itself returns whatever passes it is given: if one of them raises, the
    block returns the text that the passes before it had reached. *)
Theorem get_status_never_raises (s : state) :
  (exists r s',
     get_status s = (Returned r, s') /\
     report_chain all_fields glovar_report s r s') /\
  (forall passes start s0,
     exists r s', run_passes passes start s0 = (Returned r, s')) /\
  (forall (done : list (string -> M string)) (pass : string -> M string)
          rest start mid e s0 s1 s2,
     assign_each done start s0 = ((mid, None), s1) ->
     pass mid s1 = (Raised e, s2) ->
     fst (run_passes (done ++ pass :: rest) start s0) = Returned mid).
Proof.
  repeat split.
  - destruct (assign_each_chain all_fields glovar_report s)
      as (r & s' & E & C).
    exists r, s'. split; [|exact C].
    rewrite get_status_passes. unfold run_passes. rewrite E. reflexivity.
  - intros passes start s0.
    destruct (run_passes_returns passes start s0) as [s' E].
    eexists _, s'. exact E.
  - intros done pass rest start mid e s0 s1 s2 E F.
    unfold run_passes.
    rewrite (assign_each_stops done rest pass start mid e s0 s1 s2 E F).
    reflexivity.
Qed.

(** C7 (amended).  When the token is absent, or the metric is fetched and
    its formatted value is not empty, has no "$" and is not a part of the
    token, the output of the function holds no token, and applying the
    function to it again, in any state, returns it as it is without a
    call to the host. *)
Theorem second_application_is_noop (f : field) (text : string) (s : state) :
  (contains (codename_of f) text = false \/
   exists status s',
     status_of f s = (Returned status, s') /\
     status <> "" /\
     has_char "$" status = false /\
     contains status (codename_of f) = false) ->
  exists r s1,
    substitute f text s = (Returned r, s1) /\
    contains (codename_of f) r = false /\
    forall s2, substitute f r s2 = (Returned r, s2).
Proof.
  rewrite substitute_is_fill.
  intros [C | (status & s' & E & N & D & S)].
  - exists text, s. split; [now apply fill_absent|]. split; [exact C|].
    intros s2. now apply fill_absent.
  - destruct (contains (codename_of f) text) eqn:C.
    + assert (K : contains (codename_of f)
                    (replace (codename_of f) status text) = false).
      { destruct (codename_shape f) as [old' T].
        destruct (codename_end f) as [body B].
        rewrite T in *.
        apply (replace_clean "$" "$"); try assumption.
        now exists body. }
      exists (replace (codename_of f) status text), s'.
      split; [now apply fill_success|]. split; [exact K|].
      intros s2. now apply fill_absent.
    + exists text, s. split; [now apply fill_absent|]. split; [exact C|].
      intros s2. now apply fill_absent.
Qed.

(** C10.  When the per-core sample is an empty list, [get_cpu_usage_per]
    puts the empty string in the place of every occurrence of its token:
    what comes back is the pieces of the text around the occurrences, put
    together with nothing in between. *)
Theorem empty_sample_removes_token (text : string) (s : state) (w' : World) :
  contains "$cpu_percent_per$" text = true ->
  cpu_percent_percpu (world s) = (Returned [], w') ->
  exists pieces,
    text = join "$cpu_percent_per$" pieces /\
    leftmost_cut "$cpu_percent_per$" pieces /\
    (1 < List.length pieces)%nat /\
    get_cpu_usage_per text s =
    (Returned (join "" pieces), called s "cpu_percent" w').
Proof.
  intros C E.
  destruct (replace_cut "$" "cpu_percent_per$" "" text)
    as (pieces & E1 & E2 & L).
  exists pieces. repeat split.
  - exact E1.
  - exact L.
  - apply (leftmost_cut_two "$cpu_percent_per$"); [exact L | now rewrite <- E1].
  - rewrite <- E2. unfold get_cpu_usage_per. apply fill_success; [exact C|].
    unfold bind, os_call. rewrite E. reflexivity.
Qed.

End FieldClaims.

(** ** The per-core block *)

Section PerCoreClaims.
Context `{H : Host}.

Lemma per_core_line_core_line (i : nat) (p : pyfloat) :
  per_core_line i p = core_line (S i) p ++ newline.
Proof.
  unfold per_core_line, core_line.
  replace (Z.of_nat i + 1) with (Z.of_nat (S i)) by lia.
  now rewrite !app_assoc_str.
Qed.

Lemma per_core_loop_acc (ps : list pyfloat) (i : nat) (acc : string) :
  per_core_loop i ps acc = acc ++ per_core_loop i ps "".
Proof.
  revert i acc. induction ps as [|p ps IH]; intros i acc; simpl.
  - now rewrite app_empty_r.
  - rewrite (IH (S i) (acc ++ _)), (IH (S i) (per_core_line i p)).
    now rewrite app_assoc_str.
Qed.

(** After the loop, [status] is the lines, each followed by a newline. *)
Lemma per_core_loop_lines (ps : list pyfloat) (p : pyfloat) (i : nat) :
  per_core_loop i (p :: ps) "" =
  join newline (lines_from core_line (S i) (p :: ps)) ++ newline.
Proof.
  revert p i. induction ps as [|q ps IH]; intros p i.
  - simpl. apply per_core_line_core_line.
  - change (per_core_loop i (p :: q :: ps) "")
      with (per_core_loop (S i) (q :: ps) ("" ++ per_core_line i p)).
    rewrite per_core_loop_acc, IH. cbn [append].
    change (lines_from core_line (S i) (p :: q :: ps))
      with (core_line (S i) p :: lines_from core_line (S (S i)) (q :: ps)).
    cbn [lines_from]. rewrite join_cons.
    rewrite per_core_line_core_line, !app_assoc_str. reflexivity.
Qed.

Lemma per_core_status_lines (ps : list pyfloat) :
  per_core_status ps = join newline (lines_from core_line 1 ps).
Proof.
  destruct ps as [|p ps]; [reflexivity|].
  unfold per_core_status. rewrite per_core_loop_lines.
  set (block := join newline _).
  transitivity (drop_last (block ++ newline)).
  - now destruct (block ++ newline).
  - apply drop_last_app_char.
Qed.

Lemma lines_from_length (mk : nat -> pyfloat -> string) (ps : list pyfloat)
    (i : nat) :
  List.length (lines_from mk i ps) = List.length ps.
Proof.
  revert i. induction ps as [|p ps IH]; intros i; simpl;
    [reflexivity | now rewrite IH].
Qed.

Lemma lines_from_nth (mk : nat -> pyfloat -> string) (ps : list pyfloat)
    (i k : nat) (p : pyfloat) :
  nth_error ps k = Some p ->
  nth_error (lines_from mk i ps) k = Some (mk (i + k)%nat p).
Proof.
  revert i k. induction ps as [|q ps IH]; intros i k E.
  - destruct k; discriminate.
  - destruct k as [|k]; simpl in *.
    + injection E as ->. now rewrite Nat.add_0_r.
    + rewrite (IH (S i) k E). f_equal. f_equal. lia.
Qed.

(** C8 (amended).  When the token is in the text and the per-core sample
    is fetched, the token is replaced by a block with one line per core,
    in the order of the sample, numbered from 1, joined by newlines with
    none at the end; the line of core [k] is four tabs, the core label, a
    tab, [k], the colon glyph, and [code] applied to the percentage
    followed by "%". *)
Theorem per_core_block (text : string) (ps : list pyfloat) (s : state)
    (w' : World) :
  contains "$cpu_percent_per$" text = true ->
  cpu_percent_percpu (world s) = (Returned ps, w') ->
  exists lines,
    List.length lines = List.length ps /\
    (forall k p, nth_error ps k = Some p ->
                 nth_error lines k = Some (core_line (S k) p)) /\
    get_cpu_usage_per text s =
    (Returned (replace "$cpu_percent_per$" (join newline lines) text),
     called s "cpu_percent" w').
Proof.
  intros C E. exists (lines_from core_line 1 ps). repeat split.
  - apply lines_from_length.
  - intros k p N. now apply (lines_from_nth core_line ps 1 k p).
  - unfold get_cpu_usage_per. apply fill_success; [exact C|].
    unfold bind, os_call. rewrite E. unfold ret.
    now rewrite per_core_status_lines.
Qed.

End PerCoreClaims.

(** ** Rounding to a double *)

Section RoundingFacts.

Lemma round_half_even_bounds (num den : Z) :
  0 < den ->
  num / den <= round_half_even num den <= num / den + 1.
Proof.
  intros D. unfold round_half_even.
  destruct (2 * (num mod den) <? den); [lia|].
  destruct (den <? 2 * (num mod den)); [lia|].
  destruct (Z.even (num / den)); lia.
Qed.

Lemma round53_small (b : Z) : 0 <= b < 2 ^ 53 -> round53 b = b.
Proof.
  intros [B0 B1]. unfold round53.
  destruct (Z.eq_dec b 0) as [->|N]; [reflexivity|].
  assert (L : Z.log2 b < 53) by (apply Z.log2_lt_pow2; lia).
  destruct (Z.log2 b + 1 <=? 53) eqn:E; [reflexivity|].
  apply Z.leb_gt in E. lia.
Qed.

(** Rounding never takes a count below a power of two that it had
    reached. *)
Lemma round53_ge_pow2 (k b : Z) :
  0 <= k -> 2 ^ k <= b -> 2 ^ k <= round53 b.
Proof.
  intros K B.
  assert (P : 0 < 2 ^ k) by (apply Z.pow_pos_nonneg; lia).
  assert (B0 : 0 < b) by lia.
  unfold round53.
  destruct (Z.log2 b + 1 <=? 53) eqn:E; [exact B|].
  apply Z.leb_gt in E.
  set (L := Z.log2 b) in *.
  assert (KL : k <= L) by (apply Z.log2_le_pow2; assumption).
  set (s := L + 1 - 53).
  assert (S0 : 0 < 2 ^ s) by (apply Z.pow_pos_nonneg; lia).
  assert (LB : 2 ^ L <= b) by (apply Z.log2_spec; assumption).
  assert (Q : 2 ^ 52 <= b / 2 ^ s).
  { replace (2 ^ 52) with (2 ^ L / 2 ^ s).
    - apply Z.div_le_mono; assumption.
    - replace L with (52 + s) by (unfold s; lia).
      rewrite Z.pow_add_r by (unfold s; lia).
      apply Z.div_mul. lia. }
  pose proof (round_half_even_bounds b (2 ^ s) S0) as [R _].
  assert (T : 2 ^ L = 2 ^ 52 * 2 ^ s).
  { rewrite <- Z.pow_add_r by (unfold s; lia). f_equal. unfold s. lia. }
  assert (KL' : 2 ^ k <= 2 ^ L) by (apply Z.pow_le_mono_r; lia).
  nia.
Qed.

(** The counts from [2^60 - 64] on are the ones whose double is at least
    [2^60]. *)
Lemma round53_reaches_2_60 (b : Z) :
  2 ^ 60 - 64 <= b -> 2 ^ 60 <= round53 b.
Proof.
  intros B. destruct (Z_lt_le_dec b (2 ^ 60)) as [Lt|Ge].
  - assert (L : Z.log2 b = 59) by (apply Z.log2_unique; lia).
    unfold round53. rewrite L.
    change (59 + 1 <=? 53) with false. cbv iota.
    change (59 + 1 - 53) with 7. unfold round_half_even.
    pose proof (Z.div_mod b (2 ^ 7) ltac:(lia)) as DM.
    pose proof (Z.mod_pos_bound b (2 ^ 7) ltac:(lia)) as MB.
    assert (Q : b / 2 ^ 7 = 2 ^ 53 - 1) by lia.
    rewrite Q.
    destruct (2 * (b mod 2 ^ 7) <? 2 ^ 7) eqn:E1; [apply Z.ltb_lt in E1; lia|].
    destruct (2 ^ 7 <? 2 * (b mod 2 ^ 7)); [lia|].
    change (Z.even (2 ^ 53 - 1)) with false. lia.
  - apply (round53_ge_pow2 60); lia.
Qed.

Lemma round53_le_next_pow2 (b : Z) :
  0 < b -> round53 b <= 2 ^ (Z.log2 b + 1).
Proof.
  intros B0. unfold round53.
  pose proof (Z.log2_spec b B0) as [LB UB].
  pose proof (Z.log2_nonneg b) as L0.
  replace (Z.succ (Z.log2 b)) with (Z.log2 b + 1) in UB by lia.
  set (L := Z.log2 b) in *.
  destruct (L + 1 <=? 53) eqn:E; [lia|].
  apply Z.leb_gt in E.
  set (s := L + 1 - 53).
  assert (S0 : 0 < 2 ^ s) by (apply Z.pow_pos_nonneg; lia).
  assert (T : 2 ^ (L + 1) = 2 ^ 53 * 2 ^ s).
  { rewrite <- Z.pow_add_r by (unfold s; lia). f_equal. unfold s. lia. }
  pose proof (round_half_even_bounds b (2 ^ s) S0) as [_ R].
  assert (Q : b / 2 ^ s < 2 ^ 53).
  { apply Z.div_lt_upper_bound; [exact S0|]. lia. }
  nia.
Qed.

Lemma round_half_even_mono (n1 n2 den : Z) :
  0 < den -> n1 <= n2 ->
  round_half_even n1 den <= round_half_even n2 den.
Proof.
  intros D N.
  pose proof (Z.div_le_mono n1 n2 den D N) as Q.
  pose proof (round_half_even_bounds n1 den D) as B1.
  pose proof (round_half_even_bounds n2 den D) as B2.
  destruct (Z.eq_dec (n1 / den) (n2 / den)) as [E|NE]; [|lia].
  pose proof (Z.div_mod n1 den ltac:(lia)) as M1.
  pose proof (Z.div_mod n2 den ltac:(lia)) as M2.
  clear B1 B2. unfold round_half_even. rewrite E in *.
  repeat match goal with
         | |- context [?x <? ?y] => destruct (Z.ltb_spec x y)
         end;
    destruct (Z.even (n2 / den)); lia.
Qed.

(** Rounding to a double keeps the order. *)
Lemma round53_mono (a b : Z) : 0 <= a <= b -> round53 a <= round53 b.
Proof.
  intros [A0 AB].
  destruct (Z.eq_dec a 0) as [->|NA].
  - destruct (Z.eq_dec b 0) as [->|NB]; [lia|].
    pose proof (round53_ge_pow2 0 b ltac:(lia) ltac:(lia)) as R.
    change (round53 0) with 0. lia.
  - pose proof (Z.log2_le_mono a b AB) as L.
    pose proof (Z.log2_nonneg a) as L0.
    destruct (Z.eq_dec (Z.log2 a) (Z.log2 b)) as [E|NE].
    + unfold round53. rewrite E.
      destruct (Z.log2 b + 1 <=? 53) eqn:C; [exact AB|].
      apply Z.leb_gt in C.
      apply Z.mul_le_mono_nonneg_r; [apply Z.pow_nonneg; lia|].
      apply round_half_even_mono; [apply Z.pow_pos_nonneg; lia | exact AB].
    + pose proof (round53_le_next_pow2 a ltac:(lia)) as U.
      assert (P : 2 ^ (Z.log2 a + 1) <= 2 ^ Z.log2 b)
        by (apply Z.pow_le_mono_r; lia).
      assert (LB : 2 ^ Z.log2 b <= b) by (apply Z.log2_spec; lia).
      pose proof (round53_ge_pow2 (Z.log2 b) b ltac:(lia) LB). lia.
Qed.

End RoundingFacts.

(** ** The size formatter *)

Section SizeFacts.

Lemma lt_int_int (b : Z) : lt_int (PyInt b) factor = (b <? 2 ^ 10).
Proof. reflexivity. Qed.

Lemma truediv_int (b : Z) :
  0 <= b -> round53 b < 2 ^ 1034 ->
  truediv (PyInt b) factor =
  Returned (PyFloat {| fnum := round53 b; fexp := - (10 * 1) |}).
Proof.
  intros B0 M. unfold truediv. rewrite (Z.abs_eq b B0).
  replace (round53 b <? 2 ^ 1024 * factor) with true.
  - destruct (Z.eq_dec b 0) as [->|N]; [reflexivity|].
    rewrite Z.sgn_pos by lia. rewrite Z.mul_1_l. reflexivity.
  - symmetry. apply Z.ltb_lt.
    replace (2 ^ 1024 * factor) with (2 ^ 1034) by reflexivity. exact M.
Qed.

Lemma lt_int_scaled (m d : Z) :
  0 < d ->
  lt_int (PyFloat {| fnum := m; fexp := - (10 * d) |}) factor =
  (m <? 2 ^ (10 * (d + 1))).
Proof.
  intros D. unfold lt_int. cbn [fnum fexp].
  replace (0 <=? - (10 * d)) with false by (symmetry; apply Z.leb_gt; lia).
  f_equal. rewrite Z.opp_involutive.
  replace (10 * (d + 1)) with (10 + 10 * d) by lia.
  rewrite Z.pow_add_r by lia. reflexivity.
Qed.

Lemma truediv_scaled (m d : Z) :
  truediv (PyFloat {| fnum := m; fexp := - (10 * d) |}) factor =
  Returned (PyFloat {| fnum := m; fexp := - (10 * (d + 1)) |}).
Proof.
  unfold truediv. cbn [fnum fexp]. do 3 f_equal.
  change (Z.log2 factor) with 10. lia.
Qed.

Lemma format_2f_small (b : Z) :
  0 <= b < 2 ^ 10 ->
  format_2f (PyInt b) = Returned (format_fixed 2 {| fnum := b; fexp := 0 |}).
Proof.
  intros B. unfold format_2f, to_float.
  rewrite (Z.abs_eq b) by lia. rewrite round53_small by lia.
  replace (b <? 2 ^ 1024) with true.
  - destruct (Z.eq_dec b 0) as [->|N]; [reflexivity|].
    rewrite Z.sgn_pos by lia. now rewrite Z.mul_1_l.
  - symmetry. apply Z.ltb_lt.
    apply Z.lt_trans with (2 ^ 10); [lia|].
    apply Z.pow_lt_mono_r; lia.
Qed.

(** What [get_size] computes, without the loop: the count is rounded to a
    double once, divided [divisions b] times and printed with the unit
    reached, which stays "P" when the loop runs to its end. *)
Lemma get_size_body_closed (b : Z) (suffix : string) :
  0 <= b -> round53 b < 2 ^ 1034 ->
  get_size_body b suffix =
  Returned (format_fixed 2 (scaled b) ++ " " ++ unit_of b ++ suffix).
Proof.
  intros B0 M.
  unfold get_size_body, scaled, unit_of, divisions, units.
  cbn [size_loop]. rewrite lt_int_int.
  destruct (b <? 2 ^ 10) eqn:E0.
  { apply Z.ltb_lt in E0. rewrite format_2f_small by lia.
    rewrite round53_small by lia. reflexivity. }
  rewrite truediv_int by assumption.
  rewrite lt_int_scaled by lia. change (2 ^ (10 * (1 + 1))) with (2 ^ 20).
  destruct (round53 b <? 2 ^ 20); [reflexivity|].
  rewrite truediv_scaled, lt_int_scaled by lia.
  change (2 ^ (10 * (1 + 1 + 1))) with (2 ^ 30).
  destruct (round53 b <? 2 ^ 30); [reflexivity|].
  rewrite truediv_scaled, lt_int_scaled by lia.
  change (2 ^ (10 * (1 + 1 + 1 + 1))) with (2 ^ 40).
  destruct (round53 b <? 2 ^ 40); [reflexivity|].
  rewrite truediv_scaled, lt_int_scaled by lia.
  change (2 ^ (10 * (1 + 1 + 1 + 1 + 1))) with (2 ^ 50).
  destruct (round53 b <? 2 ^ 50); [reflexivity|].
  rewrite truediv_scaled, lt_int_scaled by lia.
  change (2 ^ (10 * (1 + 1 + 1 + 1 + 1 + 1))) with (2 ^ 60).
  destruct (round53 b <? 2 ^ 60); [reflexivity|].
  rewrite truediv_scaled. reflexivity.
Qed.

End SizeFacts.

Section SizeRange.

(** The counts that [get_size] can divide: below [2^1034 - 2^980] the
    quotient by 1024 is still a double. *)
Lemma round53_in_range (b : Z) :
  0 <= b < 2 ^ 1034 - 2 ^ 980 -> round53 b < 2 ^ 1034.
Proof.
  intros [B0 B1].
  destruct (Z.eq_dec b 0) as [->|N]; [reflexivity|].
  destruct (Z_lt_le_dec b (2 ^ 1033)) as [Lt|Ge].
  - pose proof (round53_le_next_pow2 b ltac:(lia)) as R.
    assert (L : Z.log2 b < 1033) by (apply Z.log2_lt_pow2; lia).
    assert (P : 2 ^ (Z.log2 b + 1) <= 2 ^ 1033)
      by (apply Z.pow_le_mono_r; lia).
    assert (2 ^ 1033 < 2 ^ 1034) by (apply Z.pow_lt_mono_r; lia).
    lia.
  - assert (L : Z.log2 b = 1033) by (apply Z.log2_unique; lia).
    unfold round53. rewrite L.
    change (1033 + 1 <=? 53) with false. cbv iota.
    change (1033 + 1 - 53) with 981. unfold round_half_even.
    pose proof (Z.div_mod b (2 ^ 981) ltac:(lia)) as DM.
    pose proof (Z.mod_pos_bound b (2 ^ 981) ltac:(lia)) as MB.
    assert (Q : b / 2 ^ 981 <= 2 ^ 53 - 1) by lia.
    destruct (2 * (b mod 2 ^ 981) <? 2 ^ 981) eqn:E1; [lia|].
    apply Z.ltb_ge in E1.
    assert (Q' : b / 2 ^ 981 < 2 ^ 53 - 1) by lia.
    destruct (2 ^ 981 <? 2 * (b mod 2 ^ 981)); [lia|].
    destruct (Z.even (b / 2 ^ 981)); lia.
Qed.

End SizeRange.

Section SizeClaims.
Context `{H : Host}.

Lemma get_size_returned (b : Z) (suffix text : string) (s : state) :
  get_size_body b suffix = Returned text ->
  get_size b suffix s = (Returned text, s).
Proof. intros E. unfold get_size, try_except. rewrite E. reflexivity. Qed.

(** An error in the body is logged and hidden: the caller gets "". *)
Lemma get_size_raised (b : Z) (suffix : string) (e : exn) (s : state) :
  get_size_body b suffix = Raised e ->
  get_size b suffix s =
  (Returned "", logged s ("Get size error: " ++ exn_str e)).
Proof. intros E. unfold get_size, try_except. rewrite E. reflexivity. Qed.

(** C4 (amended).  For a non-negative count below [2^1034 - 2^980],
    [get_size] returns the count (as a double) divided by 1024 as often as
    the loop does, at most six times, printed with two decimals, then a
    space, a unit prefix among none, K, M, G, T, P, and the suffix; so
    [get_size(0)] is "0.00 B", [get_size(1024)] is "1.00 KB" and
    [get_size(1024**4)] is "1.00 TB". *)
Theorem get_size_formats (s : state) :
  (forall b suffix,
     0 <= b -> b < 2 ^ 1034 - 2 ^ 980 ->
     get_size b suffix s =
     (Returned (format_fixed 2 (scaled b) ++ " " ++ unit_of b ++ suffix), s)
     /\ In (unit_of b) units /\ (divisions b <= 6)%nat) /\
  get_size 0 "B" s = (Returned "0.00 B", s) /\
  get_size 1024 "B" s = (Returned "1.00 KB", s) /\
  get_size (1024 ^ 4) "B" s = (Returned "1.00 TB", s).
Proof.
  split; [|repeat split; apply get_size_returned; reflexivity].
  intros b suffix B0 B1. split; [|split].
  - apply get_size_returned, get_size_body_closed; [exact B0|].
    apply round53_in_range. lia.
  - unfold unit_of, divisions.
    repeat match goal with |- context [if ?c then _ else _] => destruct c end;
      simpl; tauto.
  - unfold divisions.
    repeat match goal with |- context [if ?c then _ else _] => destruct c end;
      lia.
Qed.

(** C9 (amended).  For a count from [1024**6 - 64] on (and below
    [2^1034 - 2^980]) [get_size] divides six times and still prints the
    unit "P": the result is the double that the true division by 1024
    gives (the count rounded to 53 bits, over 1024), divided by
    [1024**5], with two decimals, followed by " PB".  So [1024**6] and
    [1024**6 - 1] both give "1.00 PB", while [1024**6 - 65], just below
    the range, gives "1024.00 PB". *)
Theorem get_size_beyond_peta (s : state) :
  (forall b,
     1024 ^ 6 - 64 <= b -> b < 2 ^ 1034 - 2 ^ 980 ->
     divisions b = 6%nat /\
     get_size b "B" s =
     (Returned (format_fixed 2 {| fnum := round53 b; fexp := -60 |} ++ " PB"),
      s)) /\
  get_size (1024 ^ 6) "B" s = (Returned "1.00 PB", s) /\
  get_size (1024 ^ 6 - 1) "B" s = (Returned "1.00 PB", s) /\
  get_size (1024 ^ 6 - 65) "B" s = (Returned "1024.00 PB", s).
Proof.
  split;
    [|repeat split; apply get_size_returned; vm_compute; reflexivity].
  intros b B0 B1.
  assert (R : 2 ^ 60 <= round53 b) by (apply round53_reaches_2_60; lia).
  assert (D : divisions b = 6%nat).
  { unfold divisions.
    repeat match goal with
           | |- context [if ?x <? ?y then _ else _] =>
               destruct (Z.ltb_spec x y); [lia|]
           end.
    reflexivity. }
  split; [exact D|].
  apply get_size_returned. rewrite get_size_body_closed.
  - unfold scaled, unit_of. rewrite D. reflexivity.
  - lia.
  - apply round53_in_range. lia.
Qed.

(** Up to the last unit the quantity printed is the count's double. *)
Lemma denoted_below_cap (x : Z) :
  round53 x < 2 ^ 60 ->
  denoted_bytes (scaled x) (unit_of x) = {| fnum := round53 x; fexp := 0 |}.
Proof.
  intros R. unfold denoted_bytes, scaled, unit_of, divisions.
  repeat match goal with
         | |- context [if ?c then _ else _] => destruct c eqn:?
         end; try reflexivity.
  match goal with
  | E : (round53 x <? 2 ^ 60) = false |- _ => apply Z.ltb_ge in E; lia
  end.
Qed.

(** Below [1024**6 - 64] the loop does what C5 asks: of two counts the
    larger never stands for the smaller quantity. *)
Lemma get_size_monotonic_below_cap (a b : Z) :
  0 <= a <= b -> b < 1024 ^ 6 - 64 ->
  float_ltb (denoted_bytes (scaled b) (unit_of b))
            (denoted_bytes (scaled a) (unit_of a)) = false.
Proof.
  intros [A0 AB] B.
  pose proof (round53_mono a b (conj A0 AB)) as M.
  pose proof (round53_mono b (1024 ^ 6 - 65) ltac:(lia)) as T.
  change (round53 (1024 ^ 6 - 65)) with (2 ^ 60 - 128) in T.
  rewrite !denoted_below_cap by lia.
  unfold float_ltb. cbn [fnum fexp].
  apply Z.ltb_ge. change (2 ^ (0 - Z.min 0 0)) with 1. lia.
Qed.

(** C5 (the code breaks it).  [1000 * 1024**5 < 1024**6], and both are
    printed with the unit "P", but the larger count is printed as the
    smaller quantity: "1.00 PB" against "1000.00 PB". *)
Theorem get_size_not_monotonic :
  let a := 1000 * 1024 ^ 5 in
  let b := 1024 ^ 6 in
  let xa := {| fnum := a; fexp := -50 |} in
  let xb := {| fnum := b; fexp := -60 |} in
  a < b /\
  size_loop units (PyInt a) None = Returned (PyFloat xa, Some "P") /\
  size_loop units (PyInt b) None = Returned (PyFloat xb, Some "P") /\
  float_ltb (denoted_bytes xb "P") (denoted_bytes xa "P") = true /\
  get_size_body a "B" = Returned "1000.00 PB" /\
  get_size_body b "B" = Returned "1.00 PB".
Proof. repeat split; vm_compute; reflexivity. Qed.

End SizeClaims.

(** ** The properties at work on a concrete host *)

Section Evaluation.
Import Demo.
#[local] Existing Instance h0.

Lemma token_replaced_everywhere_witness :
  contains "$hostname$" "Host: $hostname$!" = true /\
  exists pieces,
    "Host: $hostname$!" = join "$hostname$" pieces /\
    leftmost_cut "$hostname$" pieces /\
    get_hostname "Host: $hostname$!" s0 =
    (Returned (join "srv1" pieces), called s0 "gethostname" machine).
Proof.
  split; [reflexivity|].
  destruct (@token_replaced_everywhere h0 Hostname "Host: $hostname$!" "srv1"
              s0 (called s0 "gethostname" machine) eq_refl eq_refl)
    as (pieces & A & B & _ & D & _).
  exists pieces. repeat split; assumption.
Defined.

(** C1 as stated fails for a token of another field that shares its "$"
    with the token replaced: in "$hostname$kernel$" the token "$kernel$"
    is there before [get_hostname] and gone after it. *)
Lemma shared_dollar_destroys_neighbour :
  get_hostname "$hostname$kernel$" s0 =
  (Returned "srv1kernel$", called s0 "gethostname" machine) /\
  contains "$kernel$" "$hostname$kernel$" = true /\
  contains "$kernel$" "srv1kernel$" = false /\
  ~ (forall (H : Host) (f g : field) (text status : string) (s s' : state),
       g <> f ->
       contains (codename_of f) text = true ->
       status_of f s = (Returned status, s') ->
       exists r,
         fst (substitute f text s) = Returned r /\
         contains (codename_of g) r = contains (codename_of g) text).
Proof.
  split; [reflexivity|]. split; [reflexivity|]. split; [reflexivity|].
  intros C.
  destruct (C h0 Hostname Kernel "$hostname$kernel$" "srv1" s0
              (called s0 "gethostname" machine)
              ltac:(discriminate) eq_refl eq_refl) as (r & E & K).
  change (@substitute h0 Hostname) with (@get_hostname h0) in E.
  assert (R : get_hostname "$hostname$kernel$" s0 =
              (Returned "srv1kernel$", called s0 "gethostname" machine))
    by reflexivity.
  rewrite R in E. cbn [fst] in E. injection E as <-.
  discriminate K.
Qed.

Lemma failure_keeps_input_witness :
  status_of Hostname s_nameless =
  (Raised (Exception "OSError" "no hostname"),
   called s_nameless "gethostname" (world s_nameless)) /\
  get_hostname "Host: $hostname$!" s_nameless =
  (Returned "Host: $hostname$!",
   logged (called s_nameless "gethostname" (world s_nameless))
     "Get hostname error: no hostname").
Proof.
  split; [reflexivity|].
  apply (proj1 (@failure_keeps_input h0 "Host: $hostname$!" s_nameless)
           Hostname (Exception "OSError" "no hostname")
           (called s_nameless "gethostname" (world s_nameless)) eq_refl).
  reflexivity.
Defined.

(** C2 as stated fails where the error is met inside [get_size]: the
    division overflows, [get_size] logs it and returns "", and
    [get_mem_total] puts "" in the place of its token. *)
Lemma size_error_empties_token :
  get_mem_total "Mem: $memory_total$" s_huge =
  (Returned "Mem: ",
   logged (called s_huge "virtual_memory" (world s_huge))
     "Get size error: integer division result too large for a float") /\
  ~ (forall (H : Host) (f : field) (text : string) (s : state),
       warnings (snd (substitute f text s)) <> warnings s ->
       fst (substitute f text s) = Returned text).
Proof.
  assert (E : get_mem_total "Mem: $memory_total$" s_huge =
              (Returned "Mem: ",
               logged (called s_huge "virtual_memory" (world s_huge))
                 "Get size error: integer division result too large for a float"))
    by reflexivity.
  split; [exact E|].
  intros C.
  specialize (C h0 MemoryTotal "Mem: $memory_total$" s_huge).
  change (@substitute h0 MemoryTotal) with (@get_mem_total h0) in C.
  rewrite E in C. cbn [fst snd] in C.
  assert (Q : Returned "Mem: " = Returned "Mem: $memory_total$").
  { apply C. intros W. vm_compute in W. discriminate W. }
  discriminate Q.
Qed.

Lemma absent_token_is_noop_witness :
  contains (codename_of Kernel) "Host: $hostname$!" = false /\
  get_kernel "Host: $hostname$!" s0 = (Returned "Host: $hostname$!", s0) /\
  @get_status h_plain s_plain = (Returned "Nothing to fill in.", s_plain).
Proof.
  split; [reflexivity|]. split.
  - apply (proj1 (@absent_token_is_noop h0 "Host: $hostname$!" s0) Kernel).
    reflexivity.
  - apply (proj2 (@absent_token_is_noop h_plain "" s_plain)).
    intros f. destruct f; reflexivity.
Defined.

Lemma get_status_never_raises_witness :
  fst (run_passes [get_hostname; broken_pass; get_kernel]
         "$hostname$ runs $kernel$" s0) =
  Returned "srv1 runs $kernel$".
Proof.
  apply (proj2 (proj2 (@get_status_never_raises h0 s0))
           [get_hostname] broken_pass [get_kernel]
           "$hostname$ runs $kernel$" "srv1 runs $kernel$"
           (Exception "RuntimeError" "broken") s0
           (called s0 "gethostname" machine)
           (called s0 "gethostname" machine));
    reflexivity.
Defined.

Lemma second_application_is_noop_witness :
  exists r s1,
    get_hostname "Host: $hostname$!" s0 = (Returned r, s1) /\
    contains "$hostname$" r = false /\
    forall s2, get_hostname r s2 = (Returned r, s2).
Proof.
  apply (@second_application_is_noop h0 Hostname "Host: $hostname$!" s0).
  right. exists "srv1", (called s0 "gethostname" machine).
  repeat split; try reflexivity. discriminate.
Defined.

(** C7 as stated fails: on a machine called "o" the text
    "$h$hostname$stname$" becomes "$hostname$", which a second application
    turns into "o". *)
Lemma short_hostname_rebuilds_token :
  get_hostname "$h$hostname$stname$" s_short_name =
  (Returned "$hostname$",
   called s_short_name "gethostname" (world s_short_name)) /\
  fst (get_hostname "$hostname$"
         (called s_short_name "gethostname" (world s_short_name))) =
  Returned "o" /\
  ~ (forall (H : Host) (f : field) (text r : string) (s s1 : state),
       substitute f text s = (Returned r, s1) ->
       fst (substitute f r s1) = Returned r).
Proof.
  split; [reflexivity|]. split; [reflexivity|].
  intros C.
  specialize (C h0 Hostname "$h$hostname$stname$" "$hostname$" s_short_name
                (called s_short_name "gethostname" (world s_short_name))
                eq_refl).
  cbn [fst] in C. discriminate C.
Qed.

Lemma empty_sample_removes_token_witness :
  contains "$cpu_percent_per$" "Cores:$cpu_percent_per$." = true /\
  exists pieces,
    "Cores:$cpu_percent_per$." = join "$cpu_percent_per$" pieces /\
    get_cpu_usage_per "Cores:$cpu_percent_per$." s_no_cores =
    (Returned (join "" pieces),
     called s_no_cores "cpu_percent" (world s_no_cores)).
Proof.
  split; [reflexivity|].
  destruct (@empty_sample_removes_token h0 "Cores:$cpu_percent_per$."
              s_no_cores (world s_no_cores) eq_refl eq_refl)
    as (pieces & A & _ & _ & D).
  exists pieces. split; assumption.
Defined.

Lemma per_core_block_witness :
  contains "$cpu_percent_per$" "$cpu_percent_per$" = true /\
  exists lines,
    List.length lines = 2%nat /\
    nth_error lines 1 = Some (@core_line h0 2 (float_of_halves 7)) /\
    get_cpu_usage_per "$cpu_percent_per$" s0 =
    (Returned (replace "$cpu_percent_per$" (join newline lines)
                 "$cpu_percent_per$"),
     called s0 "cpu_percent" machine).
Proof.
  split; [reflexivity|].
  destruct (@per_core_block h0 "$cpu_percent_per$"
              [float_of_halves 25; float_of_halves 7] s0 machine
              eq_refl eq_refl) as (lines & A & B & C).
  exists lines. repeat split.
  - exact A.
  - apply (B 1%nat). reflexivity.
  - exact C.
Defined.

(** C8 as stated fails: between the core label and the index the code
    puts a tab, which the template of the specification does not have
    (here with a [code] helper that adds nothing). *)
Lemma per_core_line_has_a_tab :
  fst (@get_cpu_usage_per h_plain "$cpu_percent_per$" s_plain) =
  Returned (tabs4 ++ "Core" ++ tab ++ "1: 12.5%" ++ newline ++
            tabs4 ++ "Core" ++ tab ++ "2: 3.5%") /\
  ~ (forall (H : Host) (text : string) (ps : list pyfloat) (s : state)
            (w' : World),
       contains "$cpu_percent_per$" text = true ->
       cpu_percent_percpu (world s) = (Returned ps, w') ->
       fst (get_cpu_usage_per text s) =
       Returned (replace "$cpu_percent_per$"
                   (join newline (lines_from template_line 1 ps)) text)).
Proof.
  split; [reflexivity|].
  intros C.
  specialize (C h_plain "$cpu_percent_per$"
                [float_of_halves 25; float_of_halves 7] s_plain machine
                eq_refl eq_refl).
  vm_compute in C. discriminate C.
Qed.

Lemma get_size_formats_witness :
  0 <= 1536 /\ 1536 < 2 ^ 1034 - 2 ^ 980 /\
  get_size 1536 "B" s0 = (Returned "1.50 KB", s0).
Proof.
  split; [lia|]. split; [reflexivity|].
  apply (proj1 (@get_size_formats h0 s0) 1536 "B"); [lia | reflexivity].
Defined.

(** C4 as stated fails beyond the doubles: the first division of
    [2^1034] raises [OverflowError], and [get_size] returns "". *)
Lemma get_size_overflow :
  get_size (2 ^ 1034) "B" s0 =
  (Returned "",
   logged s0 "Get size error: integer division result too large for a float")
  /\
  ~ (forall (H : Host) (b : Z) (suffix : string) (s : state),
       0 <= b ->
       exists digits unit,
         In unit units /\
         fst (get_size b suffix s) = Returned (digits ++ " " ++ unit ++ suffix)).
Proof.
  assert (E : get_size (2 ^ 1034) "B" s0 =
              (Returned "",
               logged s0
                 "Get size error: integer division result too large for a float"))
    by reflexivity.
  split; [exact E|].
  intros C.
  destruct (C h0 (2 ^ 1034) "B" s0 ltac:(lia)) as (digits & unit & _ & Q).
  rewrite E in Q. cbn [fst] in Q. destruct digits; discriminate Q.
Qed.

Lemma get_size_beyond_peta_witness :
  1024 ^ 6 - 64 <= 1024 ^ 6 /\ 1024 ^ 6 < 2 ^ 1034 - 2 ^ 980 /\
  divisions (1024 ^ 6) = 6%nat /\
  get_size (1024 ^ 6) "B" s0 = (Returned "1.00 PB", s0).
Proof.
  split; [lia|]. split; [reflexivity|].
  apply (proj1 (@get_size_beyond_peta h0 s0) (1024 ^ 6)); [lia | reflexivity].
Defined.

(** C9 as stated fails at [1024**6 - 1]: the count is not a double, its
    quotient by 1024 rounds up to [2^50], and six divisions leave 1. *)
Lemma get_size_just_below_exa :
  get_size (1024 ^ 6 - 1) "B" s0 = (Returned "1.00 PB", s0) /\
  fst (get_size (1024 ^ 6 - 1) "B" s0) <> Returned "1024.00 PB" /\
  get_size (1024 ^ 6 - 65) "B" s0 = (Returned "1024.00 PB", s0).
Proof.
  assert (E : get_size (1024 ^ 6 - 1) "B" s0 = (Returned "1.00 PB", s0))
    by (apply get_size_returned; vm_compute; reflexivity).
  split; [exact E|]. split.
  - rewrite E. cbn [fst]. discriminate.
  - apply get_size_returned. vm_compute. reflexivity.
Qed.

End Evaluation.

(** * Further properties *)


(** ** Reports without a token left *)

Section FullSubstitution.
Context `{H : Host}.

Lemma clean_value_facts (v : string) :
  clean_value v = true ->
  v <> "" /\ has_char "$" v = false /\
  forall g, contains v (codename_of g) = false.
Proof.
  unfold clean_value. intros C.
  apply andb_true_iff in C. destruct C as [C C3].
  apply andb_true_iff in C. destruct C as [C1 C2].
  apply negb_true_iff in C1, C2. apply String.eqb_neq in C1.
  repeat split; [exact C1 | exact C2 |].
  intros g. rewrite forallb_forall in C3.
  apply negb_true_iff, C3, all_fields_complete.
Qed.

(** One pass under a clean host: its own token is gone afterwards, and
    no token that was absent has come in. *)
Lemma clean_pass (g : field) (text : string) (s : state) :
  clean_host ->
  exists mid s1,
    substitute g text s = (Returned mid, s1) /\
    contains (codename_of g) mid = false /\
    forall f, contains (codename_of f) text = false ->
              contains (codename_of f) mid = false.
Proof.
  intros K. rewrite substitute_is_fill.
  destruct (contains (codename_of g) text) eqn:C.
  - destruct (K g s) as (v & s' & E & V).
    destruct (clean_value_facts v V) as (V1 & V2 & V3).
    exists (replace (codename_of g) v text), s'.
    split; [now apply fill_success|].
    destruct (codename_shape g) as [g' G]. split.
    + destruct (codename_end g) as [body B]. specialize (V3 g).
      rewrite G in *.
      apply (replace_clean "$" "$"); try assumption. now exists body.
    + intros f F.
      destruct (codename_shape f) as [f' T].
      destruct (codename_end f) as [body B]. specialize (V3 f).
      rewrite G. rewrite T in *.
      apply (replace_brings_no_pattern "$" "$"); try assumption.
      now exists body.
  - exists text, s. split; [now apply fill_absent|]. split; [exact C|tauto].
Qed.

Lemma assign_each_clean (fs : list field) (start : string) (s : state) :
  clean_host ->
  exists r s',
    assign_each (map substitute fs) start s = ((r, None), s') /\
    forall f, In f fs \/ contains (codename_of f) start = false ->
              contains (codename_of f) r = false.
Proof.
  intros K. revert start s.
  induction fs as [|g fs IH]; intros start s.
  - exists start, s. split; [reflexivity|]. intros f [[]|F]. exact F.
  - destruct (clean_pass g start s K) as (mid & s1 & E & A & B).
    destruct (IH mid s1) as (r & s' & E' & C).
    exists r, s'. split.
    + simpl. rewrite E. exact E'.
    + intros f [[->|I]|F]; apply C; [now right | now left | right; now apply B].
Qed.

(** When every fetch gives a clean value, the report that [get_status]
    returns holds none of the seventeen tokens. *)
Theorem clean_values_fill_every_token (s : state) :
  (forall f s0, exists v s',
     status_of f s0 = (Returned v, s') /\ clean_value v = true) ->
  exists r s',
    get_status s = (Returned r, s') /\
    forall f, contains (codename_of f) r = false.
Proof.
  intros K.
  destruct (assign_each_clean all_fields glovar_report s K)
    as (r & s' & E & C).
  exists r, s'. split.
  - rewrite get_status_passes. unfold run_passes. rewrite E. reflexivity.
  - intros f. apply C. left. apply all_fields_complete.
Qed.

End FullSubstitution.

(** ** A host that is down *)

Section Outage.
Context `{H : Host}.

Lemma assign_each_cons (pass : string -> M string)
    (rest : list (string -> M string)) (start : string) (s : state) :
  assign_each (pass :: rest) start s =
  match pass start s with
  | (Returned r, s') => assign_each rest r s'
  | (Raised e, s') => ((start, Some e), s')
  end.
Proof. reflexivity. Qed.

Lemma py_str_within (limit z : Z) :
  limit <= 0 \/ Z.of_nat (String.length (str_int (Z.abs z))) <= limit ->
  py_str limit z = Returned (str_int z).
Proof.
  intros L. unfold py_str.
  destruct (Z.ltb_spec 0 limit); [|reflexivity].
  destruct (Z.ltb_spec limit (Z.of_nat (String.length (str_int (Z.abs z)))));
    [lia | reflexivity].
Qed.

Lemma py_str_beyond (limit z : Z) :
  0 < limit < Z.of_nat (String.length (str_int (Z.abs z))) ->
  py_str limit z =
  Raised (Exception "ValueError"
            ("Exceeds the limit (" ++ str_int limit ++
             " digits) for integer string conversion; " ++
             "use sys.set_int_max_str_digits() to increase the limit")).
Proof.
  intros L. unfold py_str.
  destruct (Z.ltb_spec 0 limit); [|lia].
  destruct (Z.ltb_spec limit (Z.of_nat (String.length (str_int (Z.abs z)))));
    [reflexivity | lia].
Qed.




(** ** Counts and frequencies that the host cannot tell *)

(** When [cpu_count] returns [None], the two count functions put "None"
    in the place of their token. *)
Theorem unknown_count_prints_none (text : string) (s : state) (w' : World) :
  (contains "$cpu_count_logical$" text = true ->
   cpu_count true (world s) = (Returned None, w') ->
   get_cpu_count_logical text s =
   (Returned (replace "$cpu_count_logical$" "None" text),
    called s "cpu_count" w')) /\
  (contains "$cpu_count_physical$" text = true ->
   cpu_count false (world s) = (Returned None, w') ->
   get_cpu_count_physical text s =
   (Returned (replace "$cpu_count_physical$" "None" text),
    called s "cpu_count" w')).
Proof.
  split; intros C E.
  - unfold get_cpu_count_logical. apply fill_success; [exact C|].
    unfold bind, os_call. rewrite E. reflexivity.
  - unfold get_cpu_count_physical. apply fill_success; [exact C|].
    unfold bind, os_call. rewrite E. reflexivity.
Qed.

(** When [cpu_freq] returns [None], each of the three frequency functions
    returns its input as it is and logs the [AttributeError]. *)
Theorem unknown_frequency_keeps_token (text : string) (s : state)
    (w' : World) :
  cpu_freq (world s) = (Returned None, w') ->
  (contains "$freq_max$" text = true ->
   get_cpu_freq_max text s =
   (Returned text,
    logged (called s "cpu_freq" w')
      "Get cpu freq max error: 'NoneType' object has no attribute 'max'")) /\
  (contains "$freq_min$" text = true ->
   get_cpu_freq_min text s =
   (Returned text,
    logged (called s "cpu_freq" w')
      "Get cpu freq min error: 'NoneType' object has no attribute 'min'")) /\
  (contains "$freq_current$" text = true ->
   get_cpu_freq_current text s =
   (Returned text,
    logged (called s "cpu_freq" w')
      "Get cpu freq current error: 'NoneType' object has no attribute 'current'")).
Proof.
  intros E.
  assert (F : forall attr name,
            freq_attr attr name s =
            (Raised (Exception "AttributeError"
                       ("'NoneType' object has no attribute '" ++ name ++ "'")),
             called s "cpu_freq" w')).
  { intros attr name. unfold freq_attr, bind, os_call. rewrite E. reflexivity. }
  repeat split; intros C.
  - unfold get_cpu_freq_max.
    rewrite (fill_failure _ _ _ text
               (Exception "AttributeError"
                  ("'NoneType' object has no attribute '" ++ "max" ++ "'"))
               s (called s "cpu_freq" w') C);
      [reflexivity|].
    unfold bind. rewrite F. reflexivity.
  - unfold get_cpu_freq_min.
    rewrite (fill_failure _ _ _ text
               (Exception "AttributeError"
                  ("'NoneType' object has no attribute '" ++ "min" ++ "'"))
               s (called s "cpu_freq" w') C);
      [reflexivity|].
    unfold bind. rewrite F. reflexivity.
  - unfold get_cpu_freq_current.
    rewrite (fill_failure _ _ _ text
               (Exception "AttributeError"
                  ("'NoneType' object has no attribute '" ++ "current" ++ "'"))
               s (called s "cpu_freq" w') C);
      [reflexivity|].
    unfold bind. rewrite F. reflexivity.
Qed.

End Outage.

(** ** Integers in decimal *)

Section DecimalFacts.

Lemma string_of_uint_numeric (u : Decimal.uint) :
  all_chars numeric (NilEmpty.string_of_uint u) = true.
Proof. induction u; simpl; auto. Qed.

Lemma str_int_numeric (z : Z) : all_chars numeric (str_int z) = true.
Proof.
  unfold str_int. destruct (Z.to_int z) as [u|u]; simpl.
  - destruct u; try reflexivity; apply (string_of_uint_numeric (_ u)).
  - destruct u; try reflexivity; apply (string_of_uint_numeric (_ u)).
Qed.

Lemma str_int_not_empty (z : Z) : str_int z <> "".
Proof.
  unfold str_int. destruct (Z.to_int z) as [u|u]; simpl.
  - destruct u; discriminate.
  - discriminate.
Qed.

Lemma all_chars_has_char (test : ascii -> bool) (c : ascii) (s : string) :
  all_chars test s = true -> test c = false -> has_char c s = false.
Proof.
  induction s as [|d s IH]; intros A T; [reflexivity|].
  simpl in A. apply andb_true_iff in A. destruct A as [A1 A2].
  simpl. rewrite (IH A2 T), orb_false_r.
  apply Ascii.eqb_neq. intros ->. congruence.
Qed.

(** A text whose first character is not in [t] is no part of [t]. *)
Lemma contains_first_char (c : ascii) (v t : string) :
  has_char c t = false -> contains (String c v) t = false.
Proof.
  induction t as [|d t IH]; intros N; [reflexivity|].
  simpl in N. apply orb_false_iff in N. destruct N as [N1 N2].
  rewrite contains_cons, (IH N2), orb_false_r. simpl.
  destruct (ascii_dec c d) as [->|ne]; [|reflexivity].
  rewrite Ascii.eqb_refl in N1. discriminate.
Qed.

(** No token holds a digit or a minus sign. *)
Lemma numeric_not_in_codename (f : field) (c : ascii) :
  numeric c = true -> has_char c (codename_of f) = false.
Proof.
  unfold numeric. simpl. intros N.
  repeat (apply orb_true_iff in N; destruct N as [N|N];
          [apply Ascii.eqb_eq in N; subst c; destruct f; reflexivity|]).
  discriminate N.
Qed.

(** An integer in decimal is a clean value. *)
Lemma str_int_clean (z : Z) (f : field) :
  str_int z <> "" /\ has_char "$" (str_int z) = false /\
  contains (str_int z) (codename_of f) = false.
Proof.
  pose proof (str_int_numeric z) as A.
  pose proof (str_int_not_empty z) as N.
  repeat split; [exact N | now apply (all_chars_has_char numeric) |].
  destruct (str_int z) as [|c v]; [contradiction|].
  simpl in A. apply andb_true_iff in A.
  apply contains_first_char, numeric_not_in_codename, A.
Qed.

End DecimalFacts.

Section IntervalFacts.
Context `{H : Host}.

(** While [str] converts the interval (no limit of digits, or an interval
    within it), [get_interval] fills its token in without a call to the
    host or a warning, and what it returns holds no "$interval$".  Beyond
    the limit it returns its input and logs the [ValueError]. *)
Theorem get_interval_within_limit (text : string) (s : state) :
  (int_max_str_digits <= 0 \/
   Z.of_nat (String.length (str_int (Z.abs glovar_interval)))
   <= int_max_str_digits ->
   get_interval text s =
   (Returned (replace "$interval$" (str_int glovar_interval) text), s) /\
   contains "$interval$"
     (replace "$interval$" (str_int glovar_interval) text) = false) /\
  (0 < int_max_str_digits
     < Z.of_nat (String.length (str_int (Z.abs glovar_interval))) ->
   contains "$interval$" text = true ->
   get_interval text s =
   (Returned text,
    logged s
      ("Get interval error: Exceeds the limit (" ++
       str_int int_max_str_digits ++
       " digits) for integer string conversion; " ++
       "use sys.set_int_max_str_digits() to increase the limit"))).
Proof.
  split.
  - intros L. split.
    + unfold get_interval.
      destruct (contains "$interval$" text) eqn:C.
      * apply fill_success; [exact C|].
        unfold str, of_outcome. now rewrite py_str_within.
      * rewrite (replace_absent "$" "interval$") by exact C.
        now apply fill_absent.
    + destruct (str_int_clean glovar_interval Interval) as (N & D & C).
      apply (replace_clean "$" "$"); try assumption.
      now exists "$interval".
  - intros L C. unfold get_interval.
    rewrite (fill_failure _ _ _ text _ s s C
               (f_equal (fun o => (o, s))
                  (py_str_beyond int_max_str_digits glovar_interval L))).
    reflexivity.
Qed.

End IntervalFacts.

(** ** The lines of the per-core block *)

Section PerCoreLines.
Context `{H : Host}.

Lemma count_char_app (c : ascii) (a b : string) :
  count_char c (a ++ b) = (count_char c a + count_char c b)%nat.
Proof.
  induction a as [|x a IH]; [reflexivity|]. simpl. rewrite IH. lia.
Qed.

Lemma count_char_absent (c : ascii) (s : string) :
  has_char c s = false -> count_char c s = 0%nat.
Proof.
  induction s as [|x s IH]; intros N; [reflexivity|].
  simpl in N. apply orb_false_iff in N. destruct N as [N1 N2].
  simpl. rewrite N1, (IH N2). reflexivity.
Qed.

Lemma count_char_join (c : ascii) (lines : list string) :
  Forall (fun l => has_char c l = false) lines ->
  count_char c (join (String c "") lines) = Nat.pred (List.length lines).
Proof.
  induction 1 as [|l rest N _ IH]; [reflexivity|].
  destruct rest as [|l' rest].
  - simpl. now apply count_char_absent.
  - rewrite join_cons, !count_char_app, IH, (count_char_absent c l N).
    simpl. rewrite Ascii.eqb_refl. lia.
Qed.

Lemma core_line_one_line (index : nat) (p : pyfloat) :
  has_char "010" (lang "core") = false ->
  has_char "010" (lang "colon") = false ->
  has_char "010" (code (float_repr p ++ "%")) = false ->
  has_char "010" (core_line index p) = false.
Proof.
  intros L1 L2 L3. unfold core_line.
  rewrite !has_char_app, L1, L2, L3.
  rewrite (all_chars_has_char numeric "010" _ (str_int_numeric _) eq_refl).
  reflexivity.
Qed.

(** When neither the labels nor [code] bring a newline, the block has one
    newline less than there are cores: one line per core, none empty at
    the end. *)
Theorem per_core_block_newlines (ps : list pyfloat) :
  has_char "010" (lang "core") = false ->
  has_char "010" (lang "colon") = false ->
  Forall (fun p => has_char "010" (code (float_repr p ++ "%")) = false) ps ->
  count_char "010" (per_core_status ps) = Nat.pred (List.length ps).
Proof.
  intros L1 L2 F. rewrite per_core_status_lines.
  rewrite <- (lines_from_length core_line ps 1).
  apply (count_char_join "010").
  generalize 1%nat. induction F as [|p rest P _ IH]; intros i; simpl.
  - constructor.
  - constructor; [now apply core_line_one_line | apply IH].
Qed.

End PerCoreLines.

(** ** More on the size formatter *)

Section SizeEdges.
Context `{H : Host}.

(** From [2^1034 - 2^980] on the nearest double of the quotient would be
    [2^1024]. *)
Lemma round53_out_of_range (b : Z) :
  2 ^ 1034 - 2 ^ 980 <= b -> 2 ^ 1034 <= round53 b.
Proof.
  intros B. destruct (Z_lt_le_dec b (2 ^ 1034)) as [Lt|Ge].
  - assert (L : Z.log2 b = 1033) by (apply Z.log2_unique; lia).
    unfold round53. rewrite L.
    change (1033 + 1 <=? 53) with false. cbv iota.
    change (1033 + 1 - 53) with 981. unfold round_half_even.
    pose proof (Z.div_mod b (2 ^ 981) ltac:(lia)) as DM.
    pose proof (Z.mod_pos_bound b (2 ^ 981) ltac:(lia)) as MB.
    assert (Q : b / 2 ^ 981 = 2 ^ 53 - 1) by lia.
    rewrite Q.
    destruct (2 * (b mod 2 ^ 981) <? 2 ^ 981) eqn:E1;
      [apply Z.ltb_lt in E1; lia|].
    destruct (2 ^ 981 <? 2 * (b mod 2 ^ 981)); [lia|].
    change (Z.even (2 ^ 53 - 1)) with false. lia.
  - apply (round53_ge_pow2 1034); lia.
Qed.

Lemma get_size_body_overflow (b : Z) (suffix : string) :
  2 ^ 1034 - 2 ^ 980 <= b ->
  get_size_body b suffix =
  Raised (Exception "OverflowError"
            "integer division result too large for a float").
Proof.
  intros B. pose proof (round53_out_of_range b B) as R.
  unfold get_size_body, units. cbn [size_loop]. rewrite lt_int_int.
  replace (b <? 2 ^ 10) with false by (symmetry; apply Z.ltb_ge; lia).
  unfold truediv. rewrite Z.abs_eq by lia.
  replace (round53 b <? 2 ^ 1024 * factor) with false; [reflexivity|].
  symmetry. apply Z.ltb_ge.
  replace (2 ^ 1024 * factor) with (2 ^ 1034) by reflexivity. exact R.
Qed.

(** For a non-negative count [get_size] returns the empty string exactly
    when the first division overflows, that is from [2^1034 - 2^980] on,
    and exactly then it logs a warning. *)
Theorem get_size_empty_on_overflow_only (b : Z) (suffix : string)
    (s : state) :
  0 <= b ->
  (b < 2 ^ 1034 - 2 ^ 980 ->
   exists text, text <> "" /\ get_size b suffix s = (Returned text, s)) /\
  (2 ^ 1034 - 2 ^ 980 <= b ->
   get_size b suffix s =
   (Returned "",
    logged s
      "Get size error: integer division result too large for a float")).
Proof.
  intros B0. split; intros B.
  - exists (format_fixed 2 (scaled b) ++ " " ++ unit_of b ++ suffix). split.
    + destruct (format_fixed 2 (scaled b)); discriminate.
    + apply get_size_returned, get_size_body_closed; [exact B0|].
      apply round53_in_range. lia.
  - rewrite (get_size_raised b suffix _ s (get_size_body_overflow b suffix B)).
    reflexivity.
Qed.

Lemma format_2f_exact (b : Z) :
  - 2 ^ 53 < b < 2 ^ 53 ->
  format_2f (PyInt b) = Returned (format_fixed 2 {| fnum := b; fexp := 0 |}).
Proof.
  intros B. unfold format_2f, to_float.
  rewrite round53_small by lia.
  replace (Z.abs b <? 2 ^ 1024) with true.
  - replace (Z.sgn b * Z.abs b) with b by lia. reflexivity.
  - symmetry. apply Z.ltb_lt.
    apply Z.lt_trans with (2 ^ 53); [lia|].
    apply Z.pow_lt_mono_r; lia.
Qed.

(** An integer that is a double is printed with ".00". *)
Lemma format_fixed_2_int (b : Z) :
  format_fixed 2 {| fnum := b; fexp := 0 |} =
  (if b <? 0 then "-" else "") ++ str_int (Z.abs b) ++ ".00".
Proof.
  unfold format_fixed, scaled_digits. cbn [fnum fexp].
  change (0 <=? 0) with true. cbv iota.
  change (10 ^ Z.of_nat 2) with 100. change (2 ^ 0) with 1.
  rewrite Z.mul_1_r, Z.div_mul, Z.mod_mul by lia. reflexivity.
Qed.

(** A count below 1024 is never scaled, and so a negative count neither,
    however large: it is printed as the integer it is, with ".00" and no
    unit prefix. *)
Theorem get_size_unscaled (b : Z) (suffix : string) (s : state) :
  - 2 ^ 53 < b < 1024 ->
  get_size b suffix s =
  (Returned ((if b <? 0 then "-" else "") ++ str_int (Z.abs b) ++ ".00 "
             ++ suffix), s).
Proof.
  intros B. apply get_size_returned.
  unfold get_size_body, units. cbn [size_loop]. rewrite lt_int_int.
  replace (b <? 2 ^ 10) with true by (symmetry; apply Z.ltb_lt; lia).
  rewrite format_2f_exact by lia. rewrite format_fixed_2_int.
  rewrite !app_assoc_str. reflexivity.
Qed.

(** A count that a double holds exactly is printed with the prefix number
    [k] for which [1024^k <= b < 1024^(k+1)], and the number printed is
    [b / 1024^k] itself, rounded to two decimals only when printed. *)
Theorem get_size_exact (b : Z) (k : nat) (suffix : string) (s : state) :
  (1 <= k <= 5)%nat ->
  1024 ^ Z.of_nat k <= b < 1024 ^ (Z.of_nat k + 1) ->
  b < 2 ^ 53 ->
  get_size b suffix s =
  (Returned (format_fixed 2 {| fnum := b; fexp := - (10 * Z.of_nat k) |}
             ++ " " ++ nth k units "" ++ suffix), s).
Proof.
  intros K B B53.
  assert (B0 : 0 <= b).
  { assert (0 < 1024 ^ Z.of_nat k) by (apply Z.pow_pos_nonneg; lia). lia. }
  apply get_size_returned. rewrite get_size_body_closed.
  2: exact B0.
  2: { rewrite round53_small by lia.
       apply Z.lt_trans with (2 ^ 53); [lia|]. apply Z.pow_lt_mono_r; lia. }
  unfold scaled, unit_of, divisions. rewrite round53_small by lia.
  destruct k as [|[|[|[|[|[|k]]]]]]; try lia;
    cbn [Z.of_nat Pos.of_succ_nat Pos.succ] in B;
    repeat match goal with
           | |- context [?x <? ?y] => destruct (Z.ltb_spec x y); try lia
           end;
    reflexivity.
Qed.

Lemma size_loop_closed (b : Z) :
  0 <= b -> round53 b < 2 ^ 1034 ->
  size_loop units (PyInt b) None =
  Returned (if b <? 2 ^ 10 then PyInt b else PyFloat (scaled b),
            Some (unit_of b)).
Proof.
  intros B0 M.
  unfold scaled, unit_of, divisions, units.
  cbn [size_loop]. rewrite lt_int_int.
  destruct (b <? 2 ^ 10) eqn:E0; [reflexivity|].
  rewrite truediv_int by assumption.
  rewrite lt_int_scaled by lia. change (2 ^ (10 * (1 + 1))) with (2 ^ 20).
  destruct (round53 b <? 2 ^ 20); [reflexivity|].
  rewrite truediv_scaled, lt_int_scaled by lia.
  change (2 ^ (10 * (1 + 1 + 1))) with (2 ^ 30).
  destruct (round53 b <? 2 ^ 30); [reflexivity|].
  rewrite truediv_scaled, lt_int_scaled by lia.
  change (2 ^ (10 * (1 + 1 + 1 + 1))) with (2 ^ 40).
  destruct (round53 b <? 2 ^ 40); [reflexivity|].
  rewrite truediv_scaled, lt_int_scaled by lia.
  change (2 ^ (10 * (1 + 1 + 1 + 1 + 1))) with (2 ^ 50).
  destruct (round53 b <? 2 ^ 50); [reflexivity|].
  rewrite truediv_scaled, lt_int_scaled by lia.
  change (2 ^ (10 * (1 + 1 + 1 + 1 + 1 + 1))) with (2 ^ 60).
  destruct (round53 b <? 2 ^ 60); [reflexivity|].
  rewrite truediv_scaled. reflexivity.
Qed.

Lemma value_of_loop (b : Z) :
  0 <= b ->
  value_of (if b <? 2 ^ 10 then PyInt b else PyFloat (scaled b)) = scaled b.
Proof.
  intros B0. unfold scaled, divisions.
  destruct (Z.ltb_spec b (2 ^ 10)); [|reflexivity].
  simpl. rewrite round53_small by lia. reflexivity.
Qed.

(** Below [1024**6 - 64] the loop keeps the order: of two counts, the
    value and unit that the loop ends with for the larger one never stand
    for fewer bytes than those of the smaller one. *)
Theorem size_loop_monotonic (a b : Z) (na nb : pynum) (ua ub : string) :
  0 <= a <= b -> b < 1024 ^ 6 - 64 ->
  size_loop units (PyInt a) None = Returned (na, Some ua) ->
  size_loop units (PyInt b) None = Returned (nb, Some ub) ->
  float_ltb (denoted_bytes (value_of nb) ub)
            (denoted_bytes (value_of na) ua) = false.
Proof.
  intros [A0 AB] B Ea Eb.
  rewrite size_loop_closed in Ea, Eb;
    try lia; try (apply round53_in_range; lia).
  injection Ea as <- <-. injection Eb as <- <-.
  rewrite !value_of_loop by lia.
  apply get_size_monotonic_below_cap; [split; assumption | exact B].
Qed.

End SizeEdges.

(** ** Values that make no token *)

Section CleanValues.
Context `{H : Host}.

(** A pass that puts a clean value in leaves none of its own tokens, and
    brings in no token of any field that the text did not have. *)
Theorem clean_value_makes_no_token (f : field) (text v : string)
    (s s' : state) :
  status_of f s = (Returned v, s') ->
  clean_value v = true ->
  exists r,
    substitute f text s = (Returned r, if contains (codename_of f) text
                                       then s' else s) /\
    contains (codename_of f) r = false /\
    forall g, contains (codename_of g) text = false ->
              contains (codename_of g) r = false.
Proof.
  intros E V. rewrite substitute_is_fill.
  destruct (clean_value_facts v V) as (V1 & V2 & V3).
  destruct (contains (codename_of f) text) eqn:C.
  - exists (replace (codename_of f) v text).
    split; [now apply fill_success|].
    destruct (codename_shape f) as [f' F]. split.
    + destruct (codename_end f) as [body B]. specialize (V3 f).
      rewrite F in *.
      apply (replace_clean "$" "$"); try assumption. now exists body.
    + intros g G.
      destruct (codename_shape g) as [g' T].
      destruct (codename_end g) as [body B]. specialize (V3 g).
      rewrite F. rewrite T in *.
      apply (replace_brings_no_pattern "$" "$"); try assumption.
      now exists body.
  - exists text. split; [now apply fill_absent|]. split; [exact C|tauto].
Qed.

Lemma zero_pad_2_numeric (z : Z) : all_chars numeric (zero_pad 2 z) = true.
Proof.
  unfold zero_pad. pose proof (str_int_numeric z) as N.
  destruct (2 - String.length (str_int z))%nat as [|[|[|n]]] eqn:E;
    simpl; try exact N; lia.
Qed.

Lemma all_chars_app (test : ascii -> bool) (a b : string) :
  all_chars test (a ++ b) = all_chars test a && all_chars test b.
Proof.
  induction a as [|c a IH]; [reflexivity|].
  simpl. rewrite IH. apply andb_assoc.
Qed.

(** What [get_size] returns for a count in its range is a clean value:
    digits, a point, a space, a unit prefix and "B". *)
Lemma size_text_clean (b : Z) :
  0 <= b ->
  clean_value (format_fixed 2 (scaled b) ++ " " ++ unit_of b ++ "B") = true.
Proof.
  intros B0.
  assert (R : 0 <= round53 b).
  { destruct (Z.eq_dec b 0) as [->|N]; [now vm_compute|].
    pose proof (round53_ge_pow2 0 b ltac:(lia) ltac:(lia)). lia. }
  unfold format_fixed. cbn [scaled fnum].
  replace (round53 b <? 0) with false by (symmetry; apply Z.ltb_ge; lia).
  cbn [append].
  set (whole := str_int _). set (cents := zero_pad 2 _).
  assert (W : all_chars numeric whole = true) by apply str_int_numeric.
  assert (Z2 : all_chars numeric cents = true) by apply zero_pad_2_numeric.
  assert (N : whole <> "") by apply str_int_not_empty.
  assert (U : has_char "$" (unit_of b) = false).
  { unfold unit_of, divisions.
    repeat match goal with
           | |- context [if ?c then _ else _] => destruct c
           end; reflexivity. }
  unfold clean_value. apply andb_true_iff. split; [apply andb_true_iff; split|].
  - apply negb_true_iff, String.eqb_neq.
    destruct whole; [contradiction | discriminate].
  - apply negb_true_iff. rewrite !has_char_app. cbn [has_char].
    rewrite has_char_app, U.
    rewrite (all_chars_has_char numeric "$" whole W eq_refl).
    rewrite (all_chars_has_char numeric "$" cents Z2 eq_refl). reflexivity.
  - apply forallb_forall. intros g _. apply negb_true_iff.
    destruct whole as [|c rest]; [contradiction|].
    simpl in W. apply andb_true_iff in W.
    apply contains_first_char, numeric_not_in_codename, W.
Qed.

(** With a memory count in the range of [get_size], each of the three
    memory-size functions logs nothing, replaces its token by the size,
    and returns a text without that token. *)
Theorem memory_sizes_fill_in (text : string) (vm : svmem) (s : state)
    (w' : World) :
  virtual_memory (world s) = (Returned vm, w') ->
  (contains "$memory_total$" text = true ->
   0 <= total vm < 2 ^ 1034 - 2 ^ 980 ->
   exists size,
     get_size_body (total vm) "B" = Returned size /\
     get_mem_total text s =
     (Returned (replace "$memory_total$" size text),
      called s "virtual_memory" w') /\
     contains "$memory_total$" (replace "$memory_total$" size text) = false)
  /\
  (contains "$memory_available$" text = true ->
   0 <= available vm < 2 ^ 1034 - 2 ^ 980 ->
   exists size,
     get_size_body (available vm) "B" = Returned size /\
     get_mem_available text s =
     (Returned (replace "$memory_available$" size text),
      called s "virtual_memory" w') /\
     contains "$memory_available$"
       (replace "$memory_available$" size text) = false)
  /\
  (contains "$memory_used$" text = true ->
   0 <= used vm < 2 ^ 1034 - 2 ^ 980 ->
   exists size,
     get_size_body (used vm) "B" = Returned size /\
     get_mem_used text s =
     (Returned (replace "$memory_used$" size text),
      called s "virtual_memory" w') /\
     contains "$memory_used$" (replace "$memory_used$" size text) = false).
Proof.
  intros E.
  assert (G : forall (f : field) (b : Z),
            0 <= b < 2 ^ 1034 - 2 ^ 980 ->
            exists size,
              get_size_body b "B" = Returned size /\
              (forall st : state, get_size b "B" st = (Returned size, st)) /\
              contains (codename_of f)
                (replace (codename_of f) size text) = false).
  { intros f b B.
    assert (Q : get_size_body b "B" =
                Returned (format_fixed 2 (scaled b) ++ " " ++ unit_of b ++ "B")).
    { apply get_size_body_closed; [lia | apply round53_in_range; lia]. }
    eexists. split; [exact Q|]. split.
    - intros st. now apply get_size_returned.
    - destruct (clean_value_facts _ (size_text_clean b (proj1 B)))
        as (V1 & V2 & V3).
      destruct (codename_shape f) as [f' F].
      destruct (codename_end f) as [body T]. specialize (V3 f).
      rewrite F in *.
      apply (replace_clean "$" "$"); try assumption. now exists body. }
  repeat split; intros C B.
  - destruct (G MemoryTotal (total vm) B) as (size & Q & R & K).
    exists size. repeat split; [exact Q | | exact K].
    unfold get_mem_total. apply fill_success; [exact C|].
    unfold bind, os_call. rewrite E. apply R.
  - destruct (G MemoryAvailable (available vm) B) as (size & Q & R & K).
    exists size. repeat split; [exact Q | | exact K].
    unfold get_mem_available. apply fill_success; [exact C|].
    unfold bind, os_call. rewrite E. apply R.
  - destruct (G MemoryUsed (used vm) B) as (size & Q & R & K).
    exists size. repeat split; [exact Q | | exact K].
    unfold get_mem_used. apply fill_success; [exact C|].
    unfold bind, os_call. rewrite E. apply R.
Qed.

End CleanValues.

(** ** What a report costs *)

Section Effort.
Context `{H : Host}.

Lemma quiet_ret {A : Type} (a : A) : quiet 0 (ret a).
Proof. intros s. exists []. simpl. now rewrite app_nil_r. Qed.

Lemma quiet_raise {A : Type} (e : exn) : quiet 0 (@raise H A e).
Proof. intros s. exists []. simpl. now rewrite app_nil_r. Qed.

Lemma quiet_of_outcome {A : Type} (o : outcome A) : quiet 0 (of_outcome o).
Proof. intros s. exists []. simpl. now rewrite app_nil_r. Qed.

Lemma quiet_str_count (c : option Z) : quiet 0 (str_count c).
Proof. destruct c; [apply quiet_of_outcome | apply quiet_ret]. Qed.

Lemma quiet_os_call {A : Type} (name : string)
    (f : World -> outcome A * World) :
  quiet 1 (os_call name f).
Proof.
  intros s. exists [name]. unfold os_call.
  destruct (f (world s)) as [r w]. simpl. repeat split. lia.
Qed.

Lemma quiet_bind {A B : Type} (a b : nat) (m : M A) (k : A -> M B) :
  quiet a m -> (forall x, quiet b (k x)) -> quiet (a + b) (bind m k).
Proof.
  intros Qm Qk s. destruct (Qm s) as (cs & C & W & L).
  unfold bind. destruct (m s) as [[x|e] s1]; simpl in *.
  - destruct (Qk x s1) as (cs' & C' & W' & L').
    exists (cs ++ cs')%list. rewrite C', C, W', W, app_assoc, List.length_app.
    repeat split. lia.
  - exists cs. repeat split; [exact C | exact W | lia].
Qed.

Lemma quiet_more {A : Type} (a b : nat) (m : M A) :
  (a <= b)%nat -> quiet a m -> quiet b m.
Proof.
  intros L Q s. destruct (Q s) as (cs & C & W & L').
  exists cs. repeat split; [exact C | exact W | lia].
Qed.

Lemma quiet_one_warning {A : Type} (a : nat) (m : M A) :
  quiet a m -> one_warning a m.
Proof.
  intros Q s. destruct (Q s) as (cs & C & W & L).
  exists cs, []. rewrite app_nil_r.
  repeat split; [exact C | exact W | exact L |].
  destruct (fst (m s)); simpl; [lia | reflexivity].
Qed.

(** [get_size] calls nothing and logs at most once. *)
Lemma get_size_one_warning (b : Z) (suffix : string) :
  one_warning 0 (get_size b suffix).
Proof.
  intros s. unfold get_size, try_except.
  destruct (get_size_body b suffix) as [text|e]; simpl.
  - exists [], []. rewrite !app_nil_r. repeat split; simpl; lia.
  - exists [], [("Get size error: " ++ exn_str e)%string].
    rewrite app_nil_r. repeat split; simpl; lia.
Qed.

Lemma quiet_then_one_warning {A B : Type} (a b : nat) (m : M A)
    (k : A -> M B) :
  quiet a m -> (forall x, one_warning b (k x)) ->
  one_warning (a + b) (bind m k).
Proof.
  intros Qm Qk s. destruct (Qm s) as (cs & C & W & L).
  unfold bind. destruct (m s) as [[x|e] s1]; simpl in *.
  - destruct (Qk x s1) as (cs' & ws & C' & W' & L' & O).
    exists (cs ++ cs')%list, ws. rewrite C', C, W', W, app_assoc, List.length_app.
    repeat split; [lia | exact O].
  - exists cs, []. rewrite app_nil_r.
    repeat split; [exact C | exact W | lia].
Qed.

(** The fetch of a field keeps within its budget of calls. *)
Lemma status_effort (f : field) : one_warning (call_budget f) (status_of f).
Proof.
  destruct f; unfold status_of, freq_attr, call_budget;
    first
      [ apply (quiet_then_one_warning 1 0);
        [apply quiet_os_call | intros ?; apply get_size_one_warning]
      | apply quiet_one_warning;
        repeat first
          [ apply quiet_ret
          | apply quiet_of_outcome
          | apply quiet_str_count
          | apply quiet_os_call
          | apply (quiet_bind 1 0)
          | apply (quiet_bind 1 2)
          | apply (quiet_bind 1 1)
          | intros ? ] ].
  all: try (destruct x; [apply quiet_ret | apply quiet_raise]).
Qed.

(** A substitution function always returns, with at most the calls of its
    fetch and at most one warning. *)
Lemma fill_effort (codename label : string) (status : M string)
    (nc : nat) (text : string) :
  one_warning nc status ->
  forall s, exists cs ws,
    calls (snd (fill codename label status text s)) = (calls s ++ cs)%list /\
    warnings (snd (fill codename label status text s)) = (warnings s ++ ws)%list /\
    (List.length cs <= nc)%nat /\ (List.length ws <= 1)%nat.
Proof.
  intros E s. unfold fill, try_except.
  destruct (contains codename text); cbn [negb].
  - destruct (E s) as (cs & ws & C & W & L & O).
    unfold bind. destruct (status s) as [[st|e] s1]; simpl in *.
    + exists cs, ws. repeat split; assumption.
    + subst ws. exists cs, [(label ++ " error: " ++ exn_str e)%string].
      rewrite app_nil_r in W. rewrite W.
      repeat split; [exact C | exact L | simpl; lia].
  - exists [], []. simpl. rewrite !app_nil_r. repeat split; simpl; lia.
Qed.

Lemma assign_each_effort (fs : list field) (start : string) (s : state) :
  exists cs ws,
    calls (snd (assign_each (map substitute fs) start s)) = (calls s ++ cs)%list /\
    warnings (snd (assign_each (map substitute fs) start s)) =
    (warnings s ++ ws)%list /\
    (List.length cs <= list_sum (map call_budget fs))%nat /\
    (List.length ws <= List.length fs)%nat.
Proof.
  revert start s. induction fs as [|f fs IH]; intros start s.
  - exists [], []. simpl. rewrite !app_nil_r. repeat split; lia.
  - cbn [map]. rewrite assign_each_cons, substitute_is_fill.
    destruct (fill_effort (codename_of f) (label_of f) (status_of f)
                (call_budget f) start (status_effort f) s)
      as (cs & ws & C & W & L & L1).
    destruct (fill_returns (codename_of f) (label_of f) (status_of f) start s)
      as (mid & s1 & E & _).
    rewrite E in *. simpl in C, W.
    destruct (IH mid s1) as (cs' & ws' & C' & W' & L' & L1').
    exists (cs ++ cs')%list, (ws ++ ws')%list.
    rewrite C', C, W', W, !app_assoc, !List.length_app.
    repeat split; simpl; lia.
Qed.

(** A report costs at most 18 calls to the host and at most 17 warnings,
    and [get_status] only ever adds to the two records. *)
Theorem get_status_effort (s : state) :
  exists cs ws,
    calls (snd (get_status s)) = (calls s ++ cs)%list /\
    warnings (snd (get_status s)) = (warnings s ++ ws)%list /\
    (List.length cs <= 18)%nat /\ (List.length ws <= 17)%nat.
Proof.
  destruct (assign_each_effort all_fields glovar_report s)
    as (cs & ws & C & W & L & L1).
  destruct (assign_each_fields all_fields glovar_report s)
    as (r & s' & E & _).
  exists cs, ws. rewrite get_status_passes. unfold run_passes.
  rewrite E in *. simpl in *. repeat split; assumption.
Qed.

End Effort.

(** ** The further properties at work on concrete hosts *)

Section FurtherEvaluation.
Import Demo.
#[local] Existing Instance h0.

Lemma clean_values_fill_every_token_witness :
  exists r s',
    @get_status h_steady s_steady = (Returned r, s') /\
    forall f, contains (codename_of f) r = false.
Proof.
  apply (@clean_values_fill_every_token h_steady s_steady).
  intros f st. destruct f; do 2 eexists; split; reflexivity.
Defined.


Lemma get_interval_within_limit_witness :
  get_interval "Every $interval$ s" s0 = (Returned "Every 60 s", s0) /\
  @get_interval h_long_interval "Every $interval$ s" s_long_interval =
  (Returned "Every $interval$ s",
   logged s_long_interval
     ("Get interval error: Exceeds the limit (640 digits) for integer " ++
      "string conversion; use sys.set_int_max_str_digits() to increase " ++
      "the limit")).
Proof.
  split.
  - destruct (proj1 (@get_interval_within_limit h0 "Every $interval$ s" s0))
      as [E _].
    + right. vm_compute. discriminate.
    + rewrite E. reflexivity.
  - rewrite (proj2 (@get_interval_within_limit h_long_interval
                      "Every $interval$ s" s_long_interval)).
    + reflexivity.
    + vm_compute. split; reflexivity.
    + reflexivity.
Defined.

Lemma unknown_count_prints_none_witness :
  get_cpu_count_logical "Cores: $cpu_count_logical$" s_unknown_cpu =
  (Returned "Cores: None",
   called s_unknown_cpu "cpu_count" (world s_unknown_cpu)).
Proof.
  apply (proj1 (@unknown_count_prints_none h0 "Cores: $cpu_count_logical$"
                  s_unknown_cpu (world s_unknown_cpu)));
    reflexivity.
Defined.

Lemma unknown_frequency_keeps_token_witness :
  get_cpu_freq_max "Max: $freq_max$" s_unknown_cpu =
  (Returned "Max: $freq_max$",
   logged (called s_unknown_cpu "cpu_freq" (world s_unknown_cpu))
     "Get cpu freq max error: 'NoneType' object has no attribute 'max'").
Proof.
  apply (proj1 (@unknown_frequency_keeps_token h0 "Max: $freq_max$"
                  s_unknown_cpu (world s_unknown_cpu) eq_refl)).
  reflexivity.
Defined.

Lemma per_core_block_newlines_witness :
  count_char "010"
    (@per_core_status h0 [float_of_halves 25; float_of_halves 7]) = 1%nat.
Proof.
  apply (@per_core_block_newlines h0
           [float_of_halves 25; float_of_halves 7]);
    [reflexivity | reflexivity | repeat constructor].
Defined.

Lemma get_size_empty_on_overflow_only_witness :
  0 <= 2 ^ 1034 - 2 ^ 980 /\
  get_size (2 ^ 1034 - 2 ^ 980) "B" s0 =
  (Returned "",
   logged s0 "Get size error: integer division result too large for a float").
Proof.
  split; [lia|].
  apply (proj2 (@get_size_empty_on_overflow_only h0 (2 ^ 1034 - 2 ^ 980) "B"
                  s0 ltac:(lia))).
  lia.
Defined.

Lemma get_size_unscaled_witness :
  - 2 ^ 53 < -2048 < 1024 /\
  get_size (-2048) "B" s0 = (Returned "-2048.00 B", s0).
Proof.
  split; [lia|]. apply (@get_size_unscaled h0 (-2048) "B" s0). lia.
Defined.

Lemma get_size_exact_witness :
  1024 ^ 2 <= 512 * 1024 ^ 2 < 1024 ^ 3 /\
  get_size (512 * 1024 ^ 2) "B" s0 = (Returned "512.00 MB", s0).
Proof.
  split; [lia|].
  apply (@get_size_exact h0 (512 * 1024 ^ 2) 2 "B" s0); [lia | lia | lia].
Defined.

Lemma size_loop_monotonic_witness :
  size_loop units (PyInt (1024 ^ 2 - 1)) None =
  Returned (PyFloat {| fnum := 1024 ^ 2 - 1; fexp := -10 |}, Some "K") /\
  size_loop units (PyInt (1024 ^ 2)) None =
  Returned (PyFloat {| fnum := 1024 ^ 2; fexp := -20 |}, Some "M") /\
  float_ltb
    (denoted_bytes (value_of (PyFloat {| fnum := 1024 ^ 2; fexp := -20 |}))
       "M")
    (denoted_bytes
       (value_of (PyFloat {| fnum := 1024 ^ 2 - 1; fexp := -10 |})) "K") =
  false.
Proof.
  split; [reflexivity|]. split; [reflexivity|].
  apply (size_loop_monotonic (1024 ^ 2 - 1) (1024 ^ 2));
    [lia | lia | reflexivity | reflexivity].
Defined.

Lemma clean_value_makes_no_token_witness :
  clean_value "srv1" = true /\
  exists r,
    get_hostname "$hostname$ runs $kernel$" s0 =
    (Returned r, called s0 "gethostname" machine) /\
    contains "$hostname$" r = false /\
    contains "$dist$" r = false.
Proof.
  split; [reflexivity|].
  destruct (@clean_value_makes_no_token h0 Hostname
              "$hostname$ runs $kernel$" "srv1" s0
              (called s0 "gethostname" machine) eq_refl eq_refl)
    as (r & E & A & B).
  exists r. repeat split; [exact E | exact A | apply (B Dist); reflexivity].
Defined.

Lemma memory_sizes_fill_in_witness :
  exists size,
    get_size_body (8 * 1024 ^ 3) "B" = Returned size /\
    get_mem_total "Mem: $memory_total$" s0 =
    (Returned (replace "$memory_total$" size "Mem: $memory_total$"),
     called s0 "virtual_memory" machine) /\
    contains "$memory_total$"
      (replace "$memory_total$" size "Mem: $memory_total$") = false.
Proof.
  apply (proj1 (@memory_sizes_fill_in h0 "Mem: $memory_total$"
                  {| total := 8 * 1024 ^ 3; available := 5 * 1024 ^ 3;
                     percent := float_of_halves 85; used := 3 * 1024 ^ 3 |}
                  s0 machine eq_refl));
    [reflexivity | simpl; lia].
Defined.

End FurtherEvaluation.
